(** * IPv4 encapsulation, decapsulation and Internet checksum (src/ipv4.c)

    A shallow embedding of [ipv4_checksum], [ipv4_send] and [ipv4_receive].
    Memory is a list of bytes, C integers are [Z] with their wrap-around
    written out, and every access outside a buffer is a [Fault]. *)

From Stdlib Require Import ZArith List Lia Bool.
From Stdlib Require Import Strings.Byte.
From Equations Require Import Equations.
Import ListNotations.
Local Open Scope Z_scope.

(** ** Machine integers *)

Module CInt.

(** Conversion to [uint16_t] and [uint32_t]. *)
Definition u16 (z : Z) : Z := z mod 2 ^ 16.
Definition u32 (z : Z) : Z := z mod 2 ^ 32.

(** The byte order of the machine the code runs on. *)
Inductive endianness : Set := LittleEndian | BigEndian.

(** The numeric value of an [unsigned char], and the conversion of an
    integer to [unsigned char]. *)
Definition byte_val (b : byte) : Z := Z.of_N (Byte.to_N b).

Definition byte_of (z : Z) : byte :=
  match Byte.of_N (Z.to_N (z mod 256)) with
  | Some b => b
  | None => x00
  end.

(** An unsigned integer as it lies in memory, least significant byte
    first, and in the byte order of the machine. *)
Fixpoint le_decode (bs : list byte) : Z :=
  match bs with
  | [] => 0
  | b :: rest => byte_val b + 256 * le_decode rest
  end.

Fixpoint le_encode (width : nat) (v : Z) : list byte :=
  match width with
  | O => []
  | S width' => byte_of v :: le_encode width' (v / 256)
  end.

Definition decode (host : endianness) (bs : list byte) : Z :=
  match host with
  | LittleEndian => le_decode bs
  | BigEndian => le_decode (rev bs)
  end.

Definition encode (host : endianness) (width : nat) (v : Z) : list byte :=
  match host with
  | LittleEndian => le_encode width v
  | BigEndian => rev (le_encode width v)
  end.

(** [htons] and [ntohs] of <arpa/inet.h>: the identity on a big-endian
    machine, a swap of the two bytes on a little-endian one. *)
Definition bswap16 (v : Z) : Z :=
  Z.lor (Z.shiftl (Z.land v 255) 8) (Z.land (Z.shiftr v 8) 255).

Definition htons (host : endianness) (v : Z) : Z :=
  match host with
  | LittleEndian => bswap16 (u16 v)
  | BigEndian => u16 v
  end.

Definition ntohs : endianness -> Z -> Z := htons.

End CInt.

Export CInt.

(** ** Memory accesses *)

Module Mem.

Inductive fault : Set := Read_out_of_bounds | Write_out_of_bounds.

(** The result of code that touches memory: a value, or the first access
    that left its buffer (undefined behaviour in C). *)
Inductive access (A : Type) : Type :=
| Ok (a : A)
| Fault (f : fault).

Arguments Ok {A} a.
Arguments Fault {A} f.

Definition bind {A B : Type} (c : access A) (k : A -> access B) : access B :=
  match c with
  | Ok a => k a
  | Fault f => Fault f
  end.

(** [unsigned char name[size]] with automatic storage: [size] bytes of
    indeterminate content, given by [stack]. *)
Definition alloca (stack : nat -> byte) (size : nat) : list byte :=
  map stack (seq 0 size).

Definition read_bytes (mem : list byte) (off n : nat) : access (list byte) :=
  if (off + n <=? length mem)%nat
  then Ok (firstn n (skipn off mem))
  else Fault Read_out_of_bounds.

Definition write_bytes (mem : list byte) (off : nat) (bs : list byte)
  : access (list byte) :=
  if (off + length bs <=? length mem)%nat
  then Ok (firstn off mem ++ bs ++ skipn (off + length bs) mem)
  else Fault Write_out_of_bounds.

(** [memcpy(dst + off, src, n)]. *)
Definition memcpy (dst : list byte) (off : nat) (src : list byte) (n : nat)
  : access (list byte) :=
  bind (read_bytes src 0 n) (fun bs => write_bytes dst off bs).

(** Reads and writes of struct fields of one, two and four bytes. *)
Definition load8 (mem : list byte) (off : nat) : access Z :=
  bind (read_bytes mem off 1) (fun bs => Ok (le_decode bs)).

Definition load16 (host : endianness) (mem : list byte) (off : nat) : access Z :=
  bind (read_bytes mem off 2) (fun bs => Ok (decode host bs)).

Definition load32 (host : endianness) (mem : list byte) (off : nat) : access Z :=
  bind (read_bytes mem off 4) (fun bs => Ok (decode host bs)).

Definition store8 (mem : list byte) (off : nat) (v : Z) : access (list byte) :=
  write_bytes mem off [byte_of v].

Definition store16 (host : endianness) (mem : list byte) (off : nat) (v : Z)
  : access (list byte) :=
  write_bytes mem off (encode host 2 v).

Definition store32 (host : endianness) (mem : list byte) (off : nat) (v : Z)
  : access (list byte) :=
  write_bytes mem off (encode host 4 v).

End Mem.

Export Mem.

Notation "x <- c ;; k" := (bind c (fun x => k))
  (at level 61, c at next level, right associativity).

(** ** The Internet checksum *)

(** [while (length > 1) { sum += *data++; length -= 2; }] with [sum] a
    [uint32_t] and [data] a [uint16_t *]: the loop leaves the sum, the
    advanced pointer and the remaining length. *)
Fixpoint checksum_words (host : endianness) (data : list byte) (length : nat)
  (sum : Z) {struct length} : access (Z * list byte * nat) :=
  match length with
  | S (S length') =>
      match data with
      | b0 :: b1 :: data' =>
          checksum_words host data' length' (u32 (sum + decode host [b0; b1]))
      | _ => Fault Read_out_of_bounds
      end
  | _ => Ok (sum, data, length)
  end.

(** [if (length > 0) sum += *(uint8_t * )data;] *)
Definition checksum_odd_byte (data : list byte) (length : nat) (sum : Z)
  : access Z :=
  match length with
  | O => Ok sum
  | S _ =>
      match data with
      | b :: _ => Ok (u32 (sum + byte_val b))
      | [] => Fault Read_out_of_bounds
      end
  end.

(** [while (sum >> 16) sum = (sum & 0xFFFF) + (sum >> 16);] run for at most
    [fuel] iterations. *)
Fixpoint checksum_fold (fuel : nat) (sum : Z) : Z :=
  match fuel with
  | O => sum
  | S fuel' =>
      if Z.shiftr sum 16 =? 0 then sum
      else checksum_fold fuel' (u32 (Z.land sum 0xFFFF + Z.shiftr sum 16))
  end.

(** A 32-bit sum leaves the folding loop after two iterations at most
    ([checksum_fold_exits] below); the bit width is a generous bound. *)
Definition fold_fuel : nat := 32.

Definition ipv4_checksum (host : endianness) (vdata : list byte) (length : nat)
  : access Z :=
  r <- checksum_words host vdata length 0 ;;
  let '(sum, data, length) := r in
  sum <- checksum_odd_byte data length sum ;;
  let sum := checksum_fold fold_fuel sum in
  Ok (u16 (Z.lnot sum)).

(** ** The checksum as the specification words it *)

Module Rfc1071.

(** The region as a sequence of 16-bit words, each 2-byte chunk read as
    stored; an odd trailing byte is the low byte of a last word whose
    high byte is zero. *)
Fixpoint words16 (host : endianness) (region : list byte) : list Z :=
  match region with
  | b0 :: b1 :: rest => decode host [b0; b1] :: words16 host rest
  | [b] => [byte_val b]
  | [] => []
  end.

Definition sum_words (ws : list Z) : Z := fold_right Z.add 0 ws.

(** Fold any carry out of bit 16 back into the low 16 bits, repeatedly,
    until no carry remains. *)
Equations? fold_carries (sum : Z) : Z by wf (Z.to_nat sum) lt :=
  fold_carries sum with Z_lt_dec sum (2 ^ 16) => {
    | left _ := sum;
    | right _ := fold_carries (sum mod 2 ^ 16 + sum / 2 ^ 16) }.
Proof.
  change (Z.pow_pos 2 16) with 65536 in *.
  pose proof (Z.div_mod sum 65536 ltac:(lia)).
  pose proof (Z.mod_pos_bound sum 65536 ltac:(lia)).
  assert (1 <= sum / 65536) by (apply Z.div_le_lower_bound; lia).
  lia.
Qed.

(** The one's complement, on 16 bits, of the folded sum. *)
Definition checksum (host : endianness) (region : list byte) : Z :=
  Z.land (Z.lnot (fold_carries (sum_words (words16 host region)))) 0xFFFF.

End Rfc1071.

(** ** Devices and headers *)

(** Modelled from the spec: [nic_device_t] is declared in interface.h, which
    is not among the sources; section 6 gives the device its own network
    address (a 32-bit value already in network byte order) and its own link
    address of 6 bytes. *)
Record nic_device_t : Type := {
  ip_address : Z;
  mac_address : list byte
}.

(** Modelled from the spec: [struct ipv4_header] is declared in ipv4.h, which
    is not among the sources; sections 3 and 6 give the fixed 20-byte layout:
    version/IHL byte, TOS byte, total-length u16, identification u16,
    flags+offset u16, TTL byte, protocol byte, checksum u16, source u32,
    destination u32. Each constant is the offset of a field. *)
Module Hdr.
Definition version_ihl : nat := 0.
Definition type_of_service : nat := 1.
Definition total_length : nat := 2.
Definition identification : nat := 4.
Definition flags_fragment_offset : nat := 6.
Definition time_to_live : nat := 8.
Definition protocol : nat := 9.
Definition header_checksum : nat := 10.
Definition source_address : nat := 12.
Definition destination_address : nat := 16.
(** [sizeof(struct ipv4_header)] *)
Definition size : nat := 20.
End Hdr.

(** ** The send path *)

(** The call [drv->send_packet(nic, ethernet_buffer, length)]: the transmit
    primitive receives the buffer and the number of bytes to send. *)
Record tx_call : Type := {
  tx_buffer : list byte;
  tx_length : Z
}.

Definition tx_frame (c : tx_call) : list byte :=
  firstn (Z.to_nat (tx_length c)) (tx_buffer c).

(** Lines 37 to 50 of [ipv4_send]: the header fields are written through
    [ip_hdr], which points to the start of [buffer]; the checksum field is
    left at zero. *)
Definition ipv4_send_fields (host : endianness) (buffer : list byte)
  (nic : nic_device_t) (dst_ip protocol payload_len : Z) : access (list byte) :=
  buffer <- store8 buffer Hdr.version_ihl (Z.lor (Z.shiftl 4 4) 5) ;;
  buffer <- store8 buffer Hdr.type_of_service 0 ;;
  buffer <- store16 host buffer Hdr.total_length
              (htons host (Z.of_nat Hdr.size + payload_len)) ;;
  buffer <- store16 host buffer Hdr.identification (htons host 0) ;;
  buffer <- store16 host buffer Hdr.flags_fragment_offset 0 ;;
  buffer <- store8 buffer Hdr.time_to_live 64 ;;
  buffer <- store8 buffer Hdr.protocol protocol ;;
  buffer <- store32 host buffer Hdr.source_address (ip_address nic) ;;
  buffer <- store32 host buffer Hdr.destination_address dst_ip ;;
  store16 host buffer Hdr.header_checksum 0.

(** Lines 37 to 51: the fields, then the checksum of the header stored in
    its own field. *)
Definition ipv4_send_header (host : endianness) (buffer : list byte)
  (nic : nic_device_t) (dst_ip protocol payload_len : Z) : access (list byte) :=
  buffer <- ipv4_send_fields host buffer nic dst_ip protocol payload_len ;;
  csum <- ipv4_checksum host buffer Hdr.size ;;
  store16 host buffer Hdr.header_checksum csum.

(** [uint16_t ip_packet_len = sizeof(struct ipv4_header) + payload_len;] *)
Definition ip_packet_len (payload_len : Z) : Z :=
  u16 (Z.of_nat Hdr.size + payload_len).

Definition broadcast_mac : list byte := [xff; xff; xff; xff; xff; xff].

(** The size of the local arrays [buffer] and [ethernet_buffer]. *)
Definition buffer_size : nat := 2048.

(** [ipv4_send]; [stack] is the indeterminate content of the two local
    arrays, [payload] the memory readable from the pointer of that name. *)
Definition ipv4_send (host : endianness) (stack : nat -> byte)
  (nic : nic_device_t) (dst_ip protocol : Z) (payload : list byte)
  (payload_len : Z) : access tx_call :=
  let buffer := alloca stack buffer_size in
  buffer <- ipv4_send_header host buffer nic dst_ip protocol payload_len ;;
  buffer <- memcpy buffer Hdr.size payload (Z.to_nat payload_len) ;;
  let ethernet_buffer :=
    alloca (fun i => stack (buffer_size + i)%nat) buffer_size in
  ethernet_buffer <- memcpy ethernet_buffer 0 broadcast_mac 6 ;;
  ethernet_buffer <- memcpy ethernet_buffer 6 (mac_address nic) 6 ;;
  let etype := htons host 0x0800 in
  ethernet_buffer <- memcpy ethernet_buffer 12 (encode host 2 etype) 2 ;;
  let ip_packet_len := ip_packet_len payload_len in
  ethernet_buffer <- memcpy ethernet_buffer 14 buffer (Z.to_nat ip_packet_len) ;;
  Ok {| tx_buffer := ethernet_buffer; tx_length := ip_packet_len + 14 |}.

(** ** The receive path *)

(** The pointer and length handed to a protocol handler. *)
Record payload_ref : Type := {
  payload_offset : nat;
  payload_length : Z
}.

(** What a call of [ipv4_receive] does once the header has been read. *)
Inductive rx_event : Type :=
| Rx_drop_checksum
    (* the [return] of step 1 *)
| Rx_drop_address
    (* the [return] of step 2 *)
| Rx_icmp (src : Z) (p : payload_ref)
    (* [icmp_receive(nic, src, payload, payload_len)] *)
| Rx_print (src protocol : Z) (p : payload_ref) (hex : access (list byte)).
    (* the diagnostic branch: source, protocol, length and the payload bytes
       it prints, or the fault of reading them *)

(** The payload bytes a handler finds behind the pointer it is given. *)
Definition payload_bytes (packet : list byte) (p : payload_ref)
  : access (list byte) :=
  read_bytes packet (payload_offset p) (Z.to_nat (payload_length p)).

(** [ipv4_receive]; [packet] is the memory readable from the pointer of that
    name. The parameter [len] is never used by the function. *)
Definition ipv4_receive (host : endianness) (nic : nic_device_t)
  (packet : list byte) (len : Z) : access rx_event :=
  csum <- ipv4_checksum host packet Hdr.size ;;
  if negb (csum =? 0) then Ok Rx_drop_checksum else
  dst <- load32 host packet Hdr.destination_address ;;
  if negb (dst =? ip_address nic) && negb (dst =? 0xFFFFFFFF)
  then Ok Rx_drop_address else
  version_ihl <- load8 packet Hdr.version_ihl ;;
  let ip_hdr_len := u16 (Z.land version_ihl 0x0F * 4) in
  let payload := Z.to_nat ip_hdr_len in
  total_length <- load16 host packet Hdr.total_length ;;
  let payload_len := u16 (ntohs host total_length - ip_hdr_len) in
  let p := {| payload_offset := payload; payload_length := payload_len |} in
  protocol <- load8 packet Hdr.protocol ;;
  src <- load32 host packet Hdr.source_address ;;
  if protocol =? 1 then Ok (Rx_icmp src p)
  else
    let hex :=
      if 0 <? payload_len
      then read_bytes packet payload
             (Z.to_nat (if 16 <? payload_len then 16 else payload_len))
      else Ok [] in
    Ok (Rx_print src protocol p hex).

(** ** Auxiliary definitions *)

(** The value both folding loops reach: the residue of the sum modulo
    65535, taken in 1..65535 for a sum that is not zero. *)
Definition ones_residue (x : Z) : Z :=
  if x =? 0 then 0 else (x - 1) mod 65535 + 1.

(** The two summing statements of [ipv4_checksum] together. *)
Definition checksum_sum (host : endianness) (data : list byte) (length : nat)
  (sum : Z) : access Z :=
  r <- checksum_words host data length sum ;;
  let '(sum, data, length) := r in
  checksum_odd_byte data length sum.

(** The 20 bytes of a header, field after field, with [csum] in the checksum
    field. *)
Definition header_image (host : endianness) (nic : nic_device_t)
  (dst_ip protocol payload_len csum : Z) : list byte :=
  [byte_of (Z.lor (Z.shiftl 4 4) 5); byte_of 0]
  ++ encode host 2 (htons host (20 + payload_len))
  ++ encode host 2 (htons host 0)
  ++ encode host 2 0
  ++ [byte_of 64; byte_of protocol]
  ++ encode host 2 csum
  ++ encode host 4 (ip_address nic)
  ++ encode host 4 dst_ip.

(** Whether a call reached the dispatch of step 4, and with which payload. *)
Definition dispatched (e : rx_event) : option payload_ref :=
  match e with
  | Rx_icmp _ p => Some p
  | Rx_print _ _ p _ => Some p
  | Rx_drop_checksum | Rx_drop_address => None
  end.

(** ** Concrete devices and payloads *)

Module Examples.

(** 10.0.0.1 and 10.0.0.2 as a little-endian machine holds them in network
    byte order. *)
Definition nic_a : nic_device_t :=
  {| ip_address := 0x0100000A;
     mac_address := [x02; x00; x00; x00; x00; x01] |}.

Definition nic_b : nic_device_t :=
  {| ip_address := 0x0200000A;
     mac_address := [x02; x00; x00; x00; x00; x02] |}.

Definition zero_stack : nat -> byte := fun _ => x00.

Definition payload8 : list byte := [x01; x02; x03; x04; x05; x06; x07; x08].

End Examples.

Import Examples.

(** A region of 131076 bytes, all of them 0xFF. *)
Definition long_region : list byte := repeat xff (Z.to_nat 131076).

(** A payload of 2015 zero bytes. *)
Definition payload2015 : list byte := repeat x00 (Z.to_nat 2015).

(** ** Concrete packets *)

Module Packets.

(** 10.0.0.1 to 10.0.0.2, protocol 1, total length 28, valid checksum. *)
Definition hdr_icmp : list byte :=
  [x45; x00; x00; x1c; x00; x00; x00; x00; x40; x01; x66; xdf;
   x0a; x00; x00; x01; x0a; x00; x00; x02].

(** The same header with one bit of the checksum field flipped. *)
Definition hdr_bad : list byte :=
  [x45; x00; x00; x1c; x00; x00; x00; x00; x40; x01; x67; xdf;
   x0a; x00; x00; x01; x0a; x00; x00; x02].

(** The same header with a header length of 6 words and the checksum that
    goes with it. *)
Definition hdr_ihl6 : list byte :=
  [x46; x00; x00; x1c; x00; x00; x00; x00; x40; x01; x65; xdf;
   x0a; x00; x00; x01; x0a; x00; x00; x02].

(** A 20-byte frame whose total length field is 0, protocol 17, valid
    checksum. *)
Definition hdr_len0 : list byte :=
  [x45; x00; x00; x00; x00; x00; x00; x00; x40; x11; x66; xeb;
   x0a; x00; x00; x01; x0a; x00; x00; x02].

(** The first 10 bytes of a packet: a frame shorter than a header. *)
Definition short_frame : list byte := firstn 10 hdr_icmp.

End Packets.

Import Packets.

(** The device whose network address lies in memory as the bytes [addr]. *)
Definition device_at (host : endianness) (addr mac : list byte) : nic_device_t :=
  {| ip_address := decode host addr; mac_address := mac |}.

(** The four bytes of the limited-broadcast address. *)
Definition all_ones : list byte := [xff; xff; xff; xff].

(** A payload of 65535 zero bytes. *)
Definition payload65535 : list byte := repeat x00 (Z.to_nat 65535).

(** The reads of a call of [ipv4_receive] all stayed inside the packet:
    those of the header and those of the bytes the diagnostic branch
    prints. *)
Definition reads_in_bounds (r : access rx_event) : Prop :=
  match r with
  | Fault _ => False
  | Ok (Rx_print _ _ _ (Fault _)) => False
  | Ok _ => True
  end.

(** * Properties *)

(** ** Bytes and integers in memory *)

Lemma byte_val_range (b : byte) : 0 <= byte_val b < 256.
Proof.
  unfold byte_val. pose proof (Byte.to_N_bounded b). lia.
Qed.

Lemma byte_of_val (b : byte) : byte_of (byte_val b) = b.
Proof.
  unfold byte_of. rewrite Z.mod_small by apply byte_val_range.
  unfold byte_val. rewrite N2Z.id, Byte.of_to_N. reflexivity.
Qed.

Lemma byte_val_of (z : Z) : byte_val (byte_of z) = z mod 256.
Proof.
  unfold byte_of, byte_val.
  pose proof (Z.mod_pos_bound z 256 ltac:(lia)).
  destruct (Byte.of_N (Z.to_N (z mod 256))) as [b|] eqn:E.
  - apply Byte.to_of_N in E. rewrite E. lia.
  - apply Byte.of_N_None_iff in E. lia.
Qed.

Ltac unfold_codec :=
  cbn [decode encode le_decode le_encode rev app] in *.

Lemma decode_pair_range (host : endianness) (b0 b1 : byte) :
  0 <= decode host [b0; b1] <= 65535.
Proof.
  pose proof (byte_val_range b0). pose proof (byte_val_range b1).
  destruct host; unfold_codec; lia.
Qed.

Lemma decode_encode_16 (host : endianness) (v : Z) :
  decode host (encode host 2 v) = v mod 65536.
Proof.
  assert (v mod 256 + 256 * ((v / 256) mod 256) = v mod 65536) as E.
  { pose proof (Z.div_mod v 256 ltac:(lia)).
    pose proof (Z.mod_pos_bound v 256 ltac:(lia)).
    pose proof (Z.div_mod (v / 256) 256 ltac:(lia)).
    pose proof (Z.mod_pos_bound (v / 256) 256 ltac:(lia)).
    apply (Z.mod_unique_pos _ _ (v / 256 / 256)); lia. }
  destruct host; unfold_codec; rewrite !byte_val_of; lia.
Qed.

(** ** The folding loop *)

Lemma ones_residue_small (x : Z) : 0 <= x < 65536 -> ones_residue x = x.
Proof.
  intros H. unfold ones_residue. destruct (Z.eqb_spec x 0) as [->|N].
  - reflexivity.
  - rewrite Z.mod_small; lia.
Qed.

Lemma ones_residue_range (x : Z) : 0 <= x -> 0 <= ones_residue x <= 65535.
Proof.
  intros H. unfold ones_residue. destruct (x =? 0); [lia|].
  pose proof (Z.mod_pos_bound (x - 1) 65535 ltac:(lia)). lia.
Qed.

Lemma fold_step (x : Z) :
  65536 <= x ->
  1 <= x mod 65536 + x / 65536 < x /\
  ones_residue (x mod 65536 + x / 65536) = ones_residue x.
Proof.
  intros H.
  pose proof (Z.div_mod x 65536 ltac:(lia)) as D.
  pose proof (Z.mod_pos_bound x 65536 ltac:(lia)) as B.
  assert (1 <= x / 65536) as Q by (apply Z.div_le_lower_bound; lia).
  split; [lia|].
  unfold ones_residue.
  destruct (Z.eqb_spec (x mod 65536 + x / 65536) 0); [lia|].
  destruct (Z.eqb_spec x 0); [lia|].
  f_equal.
  replace (x - 1) with (x mod 65536 + x / 65536 - 1 + (x / 65536) * 65535) by lia.
  rewrite Z.mod_add by lia. reflexivity.
Qed.

Lemma shiftr_16 (x : Z) : Z.shiftr x 16 = x / 65536.
Proof. rewrite Z.shiftr_div_pow2 by lia. reflexivity. Qed.

Lemma land_16 (x : Z) : Z.land x 0xFFFF = x mod 65536.
Proof. change 0xFFFF with (Z.ones 16). rewrite Z.land_ones by lia. reflexivity. Qed.

Lemma checksum_fold_small (fuel : nat) (x : Z) :
  0 <= x < 65536 -> checksum_fold fuel x = x.
Proof.
  intros H. destruct fuel as [|fuel]; simpl; [reflexivity|].
  rewrite shiftr_16, Z.div_small by lia. reflexivity.
Qed.

Lemma checksum_fold_step (fuel : nat) (x : Z) :
  65536 <= x < 2 ^ 32 ->
  checksum_fold (S fuel) x = checksum_fold fuel (x mod 65536 + x / 65536).
Proof.
  intros H. simpl. rewrite shiftr_16, land_16.
  assert (1 <= x / 65536) as Q by (apply Z.div_le_lower_bound; lia).
  destruct (Z.eqb_spec (x / 65536) 0); [lia|].
  f_equal. unfold u32. apply Z.mod_small.
  pose proof (fold_step x ltac:(lia)). lia.
Qed.

(** The loop of the code on a 32-bit sum: two iterations reach the value on
    which the loop condition fails. *)
Lemma checksum_fold_exits (fuel : nat) (x : Z) :
  0 <= x < 2 ^ 32 ->
  (2 <= fuel)%nat ->
  checksum_fold fuel x = ones_residue x /\
  Z.shiftr (checksum_fold fuel x) 16 = 0.
Proof.
  intros H F.
  assert (checksum_fold fuel x = ones_residue x) as E.
  { destruct (Z_lt_dec x 65536) as [S|L].
    - rewrite checksum_fold_small, ones_residue_small by lia. reflexivity.
    - destruct fuel as [|[|fuel]]; try lia.
      rewrite checksum_fold_step by lia.
      destruct (fold_step x ltac:(lia)) as [B1 <-].
      set (x1 := x mod 65536 + x / 65536) in *.
      assert (x1 <= 65535 + 65535) as U.
      { pose proof (Z.mod_pos_bound x 65536 ltac:(lia)).
        assert (x / 65536 < 65536) by (apply Z.div_lt_upper_bound; lia).
        unfold x1. lia. }
      destruct (Z_lt_dec x1 65536) as [S1|L1].
      + rewrite checksum_fold_small, ones_residue_small by lia. reflexivity.
      + rewrite checksum_fold_step by lia.
        destruct (fold_step x1 ltac:(lia)) as [B2 <-].
        set (x2 := x1 mod 65536 + x1 / 65536) in *.
        assert (x2 < 65536) as U2.
        { assert (x1 / 65536 = 1) as Q1.
          { symmetry. apply (Z.div_unique_pos x1 65536 1 (x1 - 65536)); lia. }
          assert (x1 mod 65536 = x1 - 65536) as R1.
          { symmetry. apply (Z.mod_unique_pos x1 65536 1); lia. }
          unfold x2. lia. }
        rewrite checksum_fold_small, ones_residue_small by lia. reflexivity. }
  split; [exact E|].
  rewrite E, shiftr_16. apply Z.div_small.
  pose proof (ones_residue_range x ltac:(lia)). lia.
Qed.

(** The loop of the specification, on a sum of any size. *)
Lemma fold_carries_residue (x : Z) :
  0 <= x -> Rfc1071.fold_carries x = ones_residue x.
Proof.
  funelim (Rfc1071.fold_carries x); intros Hx.
  - symmetry. apply ones_residue_small.
    change (2 ^ 16) with 65536 in *. lia.
  - change (2 ^ 16) with 65536 in *.
    destruct (fold_step sum ltac:(lia)) as [B E].
    rewrite <- E. apply H. lia.
Qed.

(** ** The summing loop *)

Lemma ipv4_checksum_sum (host : endianness) (data : list byte) (n : nat) :
  ipv4_checksum host data n =
  (s <- checksum_sum host data n 0 ;;
   Ok (u16 (Z.lnot (checksum_fold fold_fuel s)))).
Proof.
  unfold ipv4_checksum, checksum_sum.
  destruct (checksum_words host data n 0) as [[[s d] l]|f]; reflexivity.
Qed.

Lemma u32_range (z : Z) : 0 <= u32 z < 2 ^ 32.
Proof. unfold u32. apply Z.mod_pos_bound. lia. Qed.

Lemma u32_add_l (a b : Z) : u32 (u32 a + b) = u32 (a + b).
Proof. unfold u32. apply Zplus_mod_idemp_l. Qed.

Ltac unfold_sum :=
  cbn [length app checksum_sum checksum_words checksum_odd_byte bind
       Rfc1071.words16 Rfc1071.sum_words fold_right] in *.

(** The loops read exactly [length] bytes, and leave the sum of the words of
    the region they read, reduced modulo 2^32. *)
Lemma checksum_sum_words (host : endianness) (rest : list byte) :
  forall (k : nat) (region : list byte) (s : Z),
    (length region <= k)%nat ->
    0 <= s < 2 ^ 32 ->
    checksum_sum host (region ++ rest) (length region) s =
    Ok (u32 (s + Rfc1071.sum_words (Rfc1071.words16 host region))).
Proof.
  induction k as [|k IH]; intros region s L Hs.
  - destruct region; [|simpl in L; lia].
    unfold checksum_sum. unfold_sum. rewrite Z.add_0_r. unfold u32.
    rewrite Z.mod_small by lia. reflexivity.
  - destruct region as [|b0 [|b1 region]].
    + unfold checksum_sum. unfold_sum. rewrite Z.add_0_r. unfold u32.
      rewrite Z.mod_small by lia. reflexivity.
    + unfold checksum_sum. unfold_sum. rewrite Z.add_0_r. reflexivity.
    + unfold checksum_sum. unfold_sum.
      fold (checksum_sum host (region ++ rest) (length region)
              (u32 (s + decode host [b0; b1]))).
      rewrite IH by (try apply u32_range; simpl in L; lia).
      rewrite u32_add_l, Z.add_assoc. reflexivity.
Qed.

Lemma sum_words_bound (host : endianness) :
  forall (k : nat) (region : list byte),
    (length region <= k)%nat ->
    0 <= Rfc1071.sum_words (Rfc1071.words16 host region) /\
    2 * Rfc1071.sum_words (Rfc1071.words16 host region)
      <= 65535 * Z.of_nat (length region).
Proof.
  induction k as [|k IH]; intros region L.
  - destruct region; [|simpl in L; lia]. unfold_sum. lia.
  - destruct region as [|b0 [|b1 region]].
    + unfold_sum. lia.
    + unfold_sum. pose proof (byte_val_range b0). lia.
    + pose proof (decode_pair_range host b0 b1).
      destruct (IH region ltac:(simpl in L; lia)) as [P B].
      cbn [Rfc1071.words16 Rfc1071.sum_words fold_right].
      fold (Rfc1071.sum_words (Rfc1071.words16 host region)).
      change (length (b0 :: b1 :: region)) with (S (S (length region))).
      lia.
Qed.

(** A region whose words sum to less than 2^32 gets the checksum of the
    specification, and only its first [length] bytes are read. *)
Lemma ipv4_checksum_prefix (host : endianness) (region rest : list byte) :
  Rfc1071.sum_words (Rfc1071.words16 host region) < 2 ^ 32 ->
  ipv4_checksum host (region ++ rest) (length region) =
  Ok (Rfc1071.checksum host region).
Proof.
  intros B.
  destruct (sum_words_bound host (length region) region (le_n _)) as [P _].
  rewrite ipv4_checksum_sum.
  rewrite (checksum_sum_words host rest (length region)) by (try apply le_n; lia).
  cbn [bind]. rewrite Z.add_0_l. unfold u32 at 1.
  rewrite Z.mod_small by lia.
  destruct (checksum_fold_exits fold_fuel
              (Rfc1071.sum_words (Rfc1071.words16 host region))) as [E _];
    [lia | unfold fold_fuel; lia |].
  rewrite E. unfold Rfc1071.checksum.
  rewrite fold_carries_residue by lia.
  rewrite land_16. reflexivity.
Qed.

(** C2, as amended. For every byte region of at most 131074 bytes,
    [ipv4_checksum] over the whole region returns the Internet checksum of
    RFC 1071 as the specification words it: the 16-bit one's complement of
    the sum of the region read as consecutive 16-bit words as stored, an
    odd trailing byte counting as the low byte of a last word, with every
    carry out of bit 16 folded back until none remains. *)
Theorem ipv4_checksum_rfc1071 (host : endianness) (region : list byte) :
  Z.of_nat (length region) <= 131074 ->
  ipv4_checksum host region (length region) =
  Ok (Rfc1071.checksum host region).
Proof.
  intros L.
  destruct (sum_words_bound host (length region) region (le_n _)) as [_ B].
  rewrite <- (app_nil_r region) at 1.
  apply ipv4_checksum_prefix. lia.
Qed.

Lemma ipv4_checksum_rfc1071_witness :
  Z.of_nat (length [x45; x00; x00]) <= 131074 /\
  ipv4_checksum BigEndian [x45; x00; x00] 3 =
  Ok (Rfc1071.checksum BigEndian [x45; x00; x00]).
Proof.
  split; [simpl; lia|].
  apply (ipv4_checksum_rfc1071 BigEndian [x45; x00; x00]). simpl; lia.
Defined.

(** C2, as stated, fails on a long region: the 65538 words of [long_region]
    sum to 2^32 + 65534, the 32-bit accumulator of the code drops the carry
    out of bit 32, and the code returns 1 where the checksum of the
    specification is 0. *)
Lemma ipv4_checksum_long_region :
  ipv4_checksum LittleEndian long_region (length long_region) = Ok 1 /\
  Rfc1071.checksum LittleEndian long_region = 0 /\
  ipv4_checksum LittleEndian long_region (length long_region) <>
  Ok (Rfc1071.checksum LittleEndian long_region).
Proof.
  assert (ipv4_checksum LittleEndian long_region (length long_region) = Ok 1)
    as C by (vm_compute; reflexivity).
  assert (Rfc1071.checksum LittleEndian long_region = 0) as R.
  { unfold Rfc1071.checksum.
    assert (Rfc1071.sum_words (Rfc1071.words16 LittleEndian long_region)
            = 2 ^ 32 + 65534) as -> by (vm_compute; reflexivity).
    rewrite fold_carries_residue by lia. vm_compute. reflexivity. }
  split; [exact C|]. split; [exact R|].
  intros E. rewrite C, R in E. discriminate E.
Qed.

(** ** Buffers *)

Section Buffers.

Variables pre rest : list byte.

Lemma firstn_prefix : firstn (length pre) (pre ++ rest) = pre.
Proof.
  rewrite firstn_app, Nat.sub_diag, firstn_all, firstn_O, app_nil_r.
  reflexivity.
Qed.

Lemma skipn_prefix (n : nat) :
  skipn (length pre + n) (pre ++ rest) = skipn n rest.
Proof.
  rewrite skipn_app, skipn_all2 by lia.
  replace (length pre + n - length pre)%nat with n by lia. reflexivity.
Qed.

(** A write right behind [pre] replaces the start of [rest]. *)
Lemma write_bytes_behind (bs : list byte) :
  (length bs <= length rest)%nat ->
  write_bytes (pre ++ rest) (length pre) bs =
  Ok ((pre ++ bs) ++ skipn (length bs) rest).
Proof.
  intros L. unfold write_bytes. rewrite length_app.
  destruct (Nat.leb_spec (length pre + length bs) (length pre + length rest));
    [|lia].
  rewrite firstn_prefix, skipn_prefix, app_assoc. reflexivity.
Qed.

Lemma memcpy_behind (src : list byte) (n : nat) :
  (n <= length src)%nat ->
  (n <= length rest)%nat ->
  memcpy (pre ++ rest) (length pre) src n =
  Ok ((pre ++ firstn n src) ++ skipn n rest).
Proof.
  intros Ls Lr. unfold memcpy, read_bytes.
  destruct (Nat.leb_spec (0 + n) (length src)); [|lia].
  cbn [bind skipn].
  assert (length (firstn n src) = n) as E by (rewrite length_firstn; lia).
  rewrite write_bytes_behind by lia. rewrite E. reflexivity.
Qed.

End Buffers.

Lemma alloca_length (stack : nat -> byte) (size : nat) :
  length (alloca stack size) = size.
Proof. unfold alloca. rewrite length_map, length_seq. reflexivity. Qed.

(** ** The header built by [ipv4_send] *)

Section Header.

Variables (host : endianness) (nic : nic_device_t).
Variables (dst_ip protocol payload_len : Z).

Let image := header_image host nic dst_ip protocol payload_len.

Lemma header_image_length (csum : Z) : length (image csum) = 20%nat.
Proof. subst image. destruct host; reflexivity. Qed.

Lemma send_fields_image (buffer : list byte) :
  (20 <= length buffer)%nat ->
  ipv4_send_fields host buffer nic dst_ip protocol payload_len =
  Ok (image 0 ++ skipn 20 buffer).
Proof.
  intros L. subst image.
  do 20 (destruct buffer as [|? buffer]; [simpl in L; lia|]).
  destruct host; reflexivity.
Qed.

Lemma store_checksum_image (rest : list byte) (csum : Z) :
  store16 host (image 0 ++ rest) Hdr.header_checksum csum =
  Ok (image csum ++ rest).
Proof. subst image. destruct host; reflexivity. Qed.

(** The words of a header sum to those of the header with a zero
    checksum field, plus the checksum field. *)
Lemma header_image_sum (csum : Z) :
  Rfc1071.sum_words (Rfc1071.words16 host (image csum)) =
  Rfc1071.sum_words (Rfc1071.words16 host (image 0))
  + decode host (encode host 2 csum) - decode host (encode host 2 0).
Proof.
  subst image. destruct host;
    cbn [header_image encode le_encode rev app decode le_decode
         Rfc1071.words16 Rfc1071.sum_words fold_right];
    ring.
Qed.

Lemma ipv4_checksum_header (hdr rest : list byte) :
  length hdr = 20%nat ->
  ipv4_checksum host (hdr ++ rest) Hdr.size = Ok (Rfc1071.checksum host hdr).
Proof.
  intros L. unfold Hdr.size. rewrite <- L.
  apply ipv4_checksum_prefix.
  destruct (sum_words_bound host (length hdr) hdr (le_n _)) as [_ B].
  rewrite L in B. lia.
Qed.

Lemma send_header_image (buffer : list byte) :
  (20 <= length buffer)%nat ->
  ipv4_send_header host buffer nic dst_ip protocol payload_len =
  Ok (image (Rfc1071.checksum host (image 0)) ++ skipn 20 buffer).
Proof.
  intros L. unfold ipv4_send_header.
  rewrite send_fields_image by exact L. cbn [bind].
  rewrite ipv4_checksum_header by apply header_image_length. cbn [bind].
  apply store_checksum_image.
Qed.

End Header.

Lemma rfc1071_checksum_value (host : endianness) (region : list byte) :
  Rfc1071.checksum host region =
  65535 - ones_residue (Rfc1071.sum_words (Rfc1071.words16 host region)).
Proof.
  destruct (sum_words_bound host (length region) region (le_n _)) as [P _].
  unfold Rfc1071.checksum. rewrite fold_carries_residue by exact P.
  pose proof (ones_residue_range _ P) as R.
  rewrite land_16. unfold Z.lnot.
  symmetry. apply (Z.mod_unique_pos _ _ (-1)); lia.
Qed.

(** Adding its own one's complement to a sum leaves the all-ones word. *)
Lemma ones_residue_cancel (s : Z) :
  0 <= s -> ones_residue (s + (65535 - ones_residue s)) = 65535.
Proof.
  intros P. unfold ones_residue at 2.
  destruct (Z.eqb_spec s 0) as [->|N]; [reflexivity|].
  pose proof (Z.div_mod (s - 1) 65535 ltac:(lia)) as D.
  pose proof (Z.mod_pos_bound (s - 1) 65535 ltac:(lia)) as B.
  assert (0 <= (s - 1) / 65535) as Q by (apply Z.div_pos; lia).
  unfold ones_residue.
  destruct (Z.eqb_spec (s + (65535 - ((s - 1) mod 65535 + 1))) 0); [lia|].
  replace (s + (65535 - ((s - 1) mod 65535 + 1)) - 1)
    with (65534 + ((s - 1) / 65535) * 65535) by lia.
  rewrite Z.mod_add by lia. reflexivity.
Qed.

(** The checksum of a header that carries its own checksum is zero. *)
Lemma header_image_checksum_zero (host : endianness) (nic : nic_device_t)
  (dst_ip protocol payload_len : Z) :
  let image := header_image host nic dst_ip protocol payload_len in
  Rfc1071.checksum host (image (Rfc1071.checksum host (image 0))) = 0.
Proof.
  intros image. rewrite rfc1071_checksum_value.
  unfold image at 1. rewrite header_image_sum. fold image.
  rewrite !decode_encode_16.
  destruct (sum_words_bound host _ (image 0) (le_n _)) as [P _].
  set (s := Rfc1071.sum_words (Rfc1071.words16 host (image 0))) in *.
  pose proof (ones_residue_range s P) as R.
  rewrite (rfc1071_checksum_value host (image 0)). fold s.
  rewrite (Z.mod_small (65535 - ones_residue s)) by lia.
  rewrite Z.mod_0_l by lia. rewrite Z.sub_0_r.
  rewrite ones_residue_cancel by exact P. reflexivity.
Qed.

(** C8. The header [ipv4_send] builds, whose checksum field holds the
    checksum computed over the header with that field at zero, has checksum
    zero when [ipv4_checksum] is applied to all of its 20 bytes, the stored
    checksum field included. *)
Theorem send_header_checksum_zero (host : endianness) (stack : nat -> byte)
  (nic : nic_device_t) (dst_ip protocol payload_len : Z) :
  exists buffer : list byte,
    ipv4_send_header host (alloca stack buffer_size) nic dst_ip protocol
      payload_len = Ok buffer /\
    ipv4_checksum host buffer Hdr.size = Ok 0.
Proof.
  set (image := header_image host nic dst_ip protocol payload_len).
  exists (image (Rfc1071.checksum host (image 0))
          ++ skipn 20 (alloca stack buffer_size)).
  split.
  - apply send_header_image. rewrite alloca_length. unfold buffer_size. lia.
  - rewrite ipv4_checksum_header by apply header_image_length.
    f_equal. apply header_image_checksum_zero.
Qed.

(** ** Byte order *)

Lemma land_disjoint (a b : Z) : 0 <= b < 256 -> Z.land (a * 256) b = 0.
Proof.
  intros B. apply Z.bits_inj'. intros n Hn.
  rewrite Z.land_spec, Z.bits_0.
  destruct (Z_lt_dec n 8) as [L|G].
  - change (a * 256) with (a * 2 ^ 8). rewrite <- Z.shiftl_mul_pow2 by lia.
    rewrite Z.shiftl_spec_low by lia. reflexivity.
  - destruct (Z.eq_dec b 0) as [->|N].
    + rewrite Z.bits_0. apply andb_false_r.
    + rewrite (Z.bits_above_log2 b n); [apply andb_false_r | lia |].
      assert (Z.log2 b < 8) by (apply Z.log2_lt_pow2; lia). lia.
Qed.

Lemma bswap16_value (x : Z) :
  bswap16 x = (x mod 256) * 256 + (x / 256) mod 256.
Proof.
  unfold bswap16. change 255 with (Z.ones 8).
  rewrite !Z.land_ones, Z.shiftr_div_pow2, Z.shiftl_mul_pow2 by lia.
  change (2 ^ 8) with 256.
  pose proof (Z.mod_pos_bound (x / 256) 256 ltac:(lia)) as B.
  rewrite <- Z.lxor_lor, <- Z.add_nocarry_lxor by (apply land_disjoint; exact B).
  reflexivity.
Qed.

Lemma byte_of_mod (z : Z) : byte_of (z mod 256) = byte_of z.
Proof. unfold byte_of. rewrite Z.mod_mod by lia. reflexivity. Qed.

Lemma byte_of_eq (a b : Z) : a mod 256 = b mod 256 -> byte_of a = byte_of b.
Proof. intros E. rewrite <- (byte_of_mod a), E. apply byte_of_mod. Qed.

(** [htons] makes the two bytes in memory those of the big-endian
    representation, whatever the machine. *)
Lemma encode_htons (host : endianness) (v : Z) :
  encode host 2 (htons host v) = encode BigEndian 2 v.
Proof.
  pose proof (Z.div_mod v 65536 ltac:(lia)) as D.
  pose proof (Z.mod_pos_bound v 65536 ltac:(lia)) as B.
  set (w := v mod 65536) in *.
  pose proof (Z.div_mod w 256 ltac:(lia)) as Dw.
  pose proof (Z.mod_pos_bound w 256 ltac:(lia)) as Bw.
  assert (0 <= w / 256 < 256) as Qw
    by (split; [apply Z.div_pos | apply Z.div_lt_upper_bound]; lia).
  assert (v mod 256 = w mod 256) as E0.
  { symmetry. apply (Z.mod_unique_pos _ _ (v / 65536 * 256 + w / 256)); lia. }
  assert ((v / 256) mod 256 = w / 256) as E1.
  { assert (v / 256 = v / 65536 * 256 + w / 256) as ->.
    { symmetry. apply (Z.div_unique_pos v 256 _ (w mod 256)); lia. }
    rewrite Z.add_comm, Z.mod_add by lia. apply Z.mod_small. exact Qw. }
  destruct host; unfold htons, u16; change (2 ^ 16) with 65536; fold w;
    unfold_codec; (f_equal; [|f_equal]); apply byte_of_eq.
  - rewrite bswap16_value, E1, (Z.mod_small (w / 256)) by lia.
    rewrite Z.add_comm, Z.mod_add by lia. apply Z.mod_small. lia.
  - rewrite bswap16_value, E0, (Z.mod_small (w / 256)) by lia.
    rewrite Z.add_comm, Z.div_add, (Z.div_small (w / 256)) by lia.
    apply Z.mod_small. lia.
  - rewrite E1. apply Z.mod_small. lia.
  - symmetry. exact E0.
Qed.

(** [ntohs] of a 16-bit field read from memory is the field read as a
    big-endian number. *)
Lemma ntohs_decode (host : endianness) (b0 b1 : byte) :
  ntohs host (decode host [b0; b1]) = decode BigEndian [b0; b1].
Proof.
  pose proof (byte_val_range b0). pose proof (byte_val_range b1).
  destruct host; unfold ntohs, htons, u16; change (2 ^ 16) with 65536;
    unfold_codec.
  - rewrite Z.mod_small by lia. rewrite bswap16_value.
    set (x := byte_val b0 + 256 * (byte_val b1 + 256 * 0)).
    assert (x mod 256 = byte_val b0) as ->
      by (symmetry; apply (Z.mod_unique_pos x 256 (byte_val b1)); lia).
    assert (x / 256 = byte_val b1) as ->
      by (symmetry; apply (Z.div_unique_pos x 256 _ (byte_val b0)); lia).
    rewrite Z.mod_small by lia. lia.
  - apply Z.mod_small. lia.
Qed.

Lemma decode_encode_32 (host : endianness) (v : Z) :
  0 <= v < 2 ^ 32 -> decode host (encode host 4 v) = v.
Proof.
  intros R.
  pose proof (Z.div_mod v 256 ltac:(lia)).
  pose proof (Z.mod_pos_bound v 256 ltac:(lia)).
  pose proof (Z.div_mod (v / 256) 256 ltac:(lia)).
  pose proof (Z.mod_pos_bound (v / 256) 256 ltac:(lia)).
  pose proof (Z.div_mod (v / 256 / 256) 256 ltac:(lia)).
  pose proof (Z.mod_pos_bound (v / 256 / 256) 256 ltac:(lia)).
  assert (0 <= v / 256 / 256 / 256 < 256).
  { split; [repeat apply Z.div_pos; lia|].
    repeat apply Z.div_lt_upper_bound; lia. }
  destruct host; unfold_codec; rewrite !byte_val_of;
    rewrite (Z.mod_small (v / 256 / 256 / 256)) by lia; lia.
Qed.

Lemma encode_length (host : endianness) (width : nat) (v : Z) :
  length (encode host width v) = width.
Proof.
  assert (forall w x, length (le_encode w x) = w) as E.
  { induction w as [|w IH]; intros x; simpl; [|rewrite IH]; reflexivity. }
  destruct host; unfold encode; rewrite ?length_rev; apply E.
Qed.

(** ** Reading the fields of a header *)

Lemma read_bytes_app_l (mem rest : list byte) (off n : nat) :
  (off + n <= length mem)%nat ->
  read_bytes (mem ++ rest) off n = read_bytes mem off n.
Proof.
  intros L. unfold read_bytes. rewrite length_app.
  destruct (Nat.leb_spec (off + n) (length mem + length rest)); [|lia].
  destruct (Nat.leb_spec (off + n) (length mem)); [|lia].
  rewrite skipn_app, firstn_app, length_skipn.
  replace (n - (length mem - off))%nat with 0%nat by lia.
  rewrite firstn_O, app_nil_r. reflexivity.
Qed.

Lemma read_bytes_app_r (mem rest : list byte) (n : nat) :
  (n <= length rest)%nat ->
  read_bytes (mem ++ rest) (length mem) n = Ok (firstn n rest).
Proof.
  intros L. unfold read_bytes. rewrite length_app.
  destruct (Nat.leb_spec (length mem + n) (length mem + length rest)); [|lia].
  rewrite <- (Nat.add_0_r (length mem)) at 1. rewrite skipn_prefix.
  reflexivity.
Qed.

Section HeaderFields.

Variables (host : endianness) (nic : nic_device_t).
Variables (dst_ip protocol payload_len csum : Z).

Let hdr := header_image host nic dst_ip protocol payload_len csum.

Lemma header_image_read :
  read_bytes hdr Hdr.version_ihl 1 = Ok [byte_of 0x45] /\
  read_bytes hdr Hdr.type_of_service 1 = Ok [byte_of 0] /\
  read_bytes hdr Hdr.total_length 2
    = Ok (encode host 2 (htons host (20 + payload_len))) /\
  read_bytes hdr Hdr.identification 2 = Ok (encode host 2 (htons host 0)) /\
  read_bytes hdr Hdr.flags_fragment_offset 2 = Ok (encode host 2 0) /\
  read_bytes hdr Hdr.time_to_live 1 = Ok [byte_of 64] /\
  read_bytes hdr Hdr.protocol 1 = Ok [byte_of protocol] /\
  read_bytes hdr Hdr.header_checksum 2 = Ok (encode host 2 csum) /\
  read_bytes hdr Hdr.source_address 4 = Ok (encode host 4 (ip_address nic)) /\
  read_bytes hdr Hdr.destination_address 4 = Ok (encode host 4 dst_ip).
Proof. subst hdr. destruct host; repeat split; reflexivity. Qed.

Lemma load8_byte (mem : list byte) (off : nat) (v : Z) :
  read_bytes mem off 1 = Ok [byte_of v] -> load8 mem off = Ok (v mod 256).
Proof.
  intros E. unfold load8. rewrite E. cbn [bind le_decode].
  rewrite byte_val_of. f_equal. lia.
Qed.

Lemma load16_field (mem : list byte) (off : nat) (v : Z) :
  read_bytes mem off 2 = Ok (encode host 2 v) ->
  load16 host mem off = Ok (v mod 65536).
Proof.
  intros E. unfold load16. rewrite E. cbn [bind].
  rewrite decode_encode_16. reflexivity.
Qed.

Lemma load32_field (mem : list byte) (off : nat) (v : Z) :
  0 <= v < 2 ^ 32 ->
  read_bytes mem off 4 = Ok (encode host 4 v) ->
  load32 host mem off = Ok v.
Proof.
  intros R E. unfold load32. rewrite E. cbn [bind].
  rewrite decode_encode_32 by exact R. reflexivity.
Qed.

(** The total length field, read as a big-endian number. *)
Lemma header_image_total_length :
  load16 BigEndian hdr Hdr.total_length = Ok ((20 + payload_len) mod 65536).
Proof.
  destruct header_image_read as (_ & _ & E & _).
  unfold load16. rewrite E. cbn [bind].
  rewrite encode_htons. rewrite decode_encode_16. reflexivity.
Qed.

End HeaderFields.

(** ** The frame built by [ipv4_send] *)

Lemma memcpy_at (pre rest : list byte) (off : nat) (src : list byte) (n : nat) :
  off = length pre ->
  (n <= length src)%nat ->
  (n <= length rest)%nat ->
  memcpy (pre ++ rest) off src n = Ok ((pre ++ firstn n src) ++ skipn n rest).
Proof. intros ->. apply memcpy_behind. Qed.

Lemma memcpy_short_source (dst src : list byte) (off n : nat) :
  (length src < n)%nat -> memcpy dst off src n = Fault Read_out_of_bounds.
Proof.
  intros L. unfold memcpy, read_bytes.
  destruct (Nat.leb_spec (0 + n) (length src)); [lia | reflexivity].
Qed.

Ltac list_length :=
  repeat (rewrite ?length_app, ?length_skipn, ?length_firstn, ?alloca_length,
            ?encode_length, ?header_image_length in * );
  cbn [length broadcast_mac] in *; try lia.

Lemma ip_packet_len_small (payload_len : Z) :
  0 <= payload_len <= 65515 -> ip_packet_len payload_len = 20 + payload_len.
Proof.
  intros R. unfold ip_packet_len, u16, Hdr.size.
  change (Z.of_nat 20) with 20. apply Z.mod_small. lia.
Qed.

(** With a payload that fits, every copy succeeds and the frame handed to
    the driver is the link header, the IPv4 header and the payload. *)
Lemma ipv4_send_ok (host : endianness) (stack : nat -> byte)
  (nic : nic_device_t) (dst_ip protocol : Z) (payload : list byte)
  (payload_len : Z) :
  0 <= payload_len <= 2014 ->
  (Z.to_nat payload_len <= length payload)%nat ->
  (6 <= length (mac_address nic))%nat ->
  exists call : tx_call,
    ipv4_send host stack nic dst_ip protocol payload payload_len = Ok call /\
    tx_length call = 14 + 20 + payload_len /\
    tx_frame call =
      broadcast_mac ++ firstn 6 (mac_address nic) ++ encode BigEndian 2 0x0800
      ++ header_image host nic dst_ip protocol payload_len
           (Rfc1071.checksum host
              (header_image host nic dst_ip protocol payload_len 0))
      ++ firstn (Z.to_nat payload_len) payload.
Proof.
  intros R Lp Lm. unfold ipv4_send.
  assert (buffer_size = 2048%nat) as Bs by reflexivity.
  rewrite send_header_image by (rewrite alloca_length; lia). cbn [bind].
  set (hdr := header_image host nic dst_ip protocol payload_len _).
  assert (length hdr = 20%nat) as Lh by apply header_image_length.
  set (n := Z.to_nat payload_len) in *.
  assert (n <= 2014)%nat as Ln by lia.
  unfold Hdr.size at 1.
  rewrite memcpy_at by list_length. cbn [bind].
  match goal with
  | |- context [memcpy ?e 0 broadcast_mac 6] => set (E0 := e)
  end.
  assert (length E0 = 2048%nat) as Le by apply alloca_length.
  change E0 with ([] ++ E0) at 1.
  rewrite memcpy_at by list_length. cbn [bind].
  change ([] ++ firstn 6 broadcast_mac) with broadcast_mac.
  rewrite memcpy_at by list_length. cbn [bind].
  rewrite memcpy_at by list_length. cbn [bind].
  rewrite ip_packet_len_small by lia.
  rewrite memcpy_at by list_length. cbn [bind].
  eexists. split; [reflexivity|]. split; [cbn [tx_length]; lia|].
  unfold tx_frame. cbn [tx_length tx_buffer].
  assert (Z.to_nat (20 + payload_len) = (20 + n)%nat) as -> by lia.
  assert (Z.to_nat (20 + payload_len + 14) = (34 + n)%nat) as -> by lia.
  rewrite (firstn_all2 (n:=2)) by list_length.
  rewrite encode_htons.
  replace (20 + n)%nat with (length (hdr ++ firstn n payload)) at 1
    by list_length.
  rewrite firstn_prefix.
  match goal with
  | |- firstn ?k (?pre ++ ?rest) = _ =>
      replace k with (length pre) by list_length
  end.
  rewrite firstn_prefix, <- !app_assoc. reflexivity.
Qed.

(** C7, as amended. For every call of [ipv4_send] whose payload length is at
    most 2014, with a 6-byte link address, 32-bit addresses and an 8-bit
    protocol, the frame handed to the transmit primitive has 14 + 20 + n
    bytes: the all-ones link address whatever the destination, the link
    address of the device, ethertype 0x0800, then a 20-byte header with
    version/IHL 0x45, type of service 0, total length 20 + n in network byte
    order, identification 0, flags and fragment offset 0, TTL 64, the
    protocol, the address of the device as source, the destination, and a
    checksum field that holds the checksum of the header computed with that
    field at zero; then the n payload bytes. *)
Theorem ipv4_send_frame (host : endianness) (stack : nat -> byte)
  (nic : nic_device_t) (dst_ip protocol : Z) (payload : list byte)
  (payload_len : Z) :
  0 <= payload_len <= 2014 ->
  length payload = Z.to_nat payload_len ->
  length (mac_address nic) = 6%nat ->
  0 <= ip_address nic < 2 ^ 32 ->
  0 <= dst_ip < 2 ^ 32 ->
  0 <= protocol < 256 ->
  exists (call : tx_call) (hdr : list byte),
    ipv4_send host stack nic dst_ip protocol payload payload_len = Ok call /\
    tx_length call = 14 + 20 + payload_len /\
    Z.of_nat (length (tx_frame call)) = 14 + 20 + payload_len /\
    tx_frame call
      = broadcast_mac ++ mac_address nic ++ [x08; x00] ++ hdr ++ payload /\
    length hdr = 20%nat /\
    load8 hdr Hdr.version_ihl = Ok 0x45 /\
    load8 hdr Hdr.type_of_service = Ok 0 /\
    load16 BigEndian hdr Hdr.total_length = Ok (20 + payload_len) /\
    load16 host hdr Hdr.identification = Ok 0 /\
    load16 host hdr Hdr.flags_fragment_offset = Ok 0 /\
    load8 hdr Hdr.time_to_live = Ok 64 /\
    load8 hdr Hdr.protocol = Ok protocol /\
    load32 host hdr Hdr.source_address = Ok (ip_address nic) /\
    load32 host hdr Hdr.destination_address = Ok dst_ip /\
    exists (zeroed : list byte) (csum : Z),
      store16 host hdr Hdr.header_checksum 0 = Ok zeroed /\
      ipv4_checksum host zeroed Hdr.size = Ok csum /\
      load16 host hdr Hdr.header_checksum = Ok csum.
Proof.
  intros R Lp Lm Ra Rd Rp.
  destruct (ipv4_send_ok host stack nic dst_ip protocol payload payload_len)
    as (call & Hs & Hl & Hf); try lia.
  set (image := header_image host nic dst_ip protocol payload_len) in *.
  set (csum := Rfc1071.checksum host (image 0)) in *.
  rewrite !firstn_all2 in Hf by lia.
  change (encode BigEndian 2 2048) with [x08; x00] in Hf.
  destruct (header_image_read host nic dst_ip protocol payload_len csum)
    as (F0 & F1 & F2 & F4 & F6 & F8 & F9 & F10 & F12 & F16).
  fold image in F0, F1, F2, F4, F6, F8, F9, F10, F12, F16.
  exists call, (image csum).
  repeat match goal with |- _ /\ _ => split end.
  - exact Hs.
  - exact Hl.
  - rewrite Hf. list_length. unfold image. rewrite header_image_length. lia.
  - exact Hf.
  - apply header_image_length.
  - apply load8_byte in F0. exact F0.
  - apply load8_byte in F1. exact F1.
  - unfold image. rewrite header_image_total_length.
    rewrite Z.mod_small by lia. reflexivity.
  - apply load16_field in F4. rewrite F4. destruct host; reflexivity.
  - apply load16_field in F6. exact F6.
  - apply load8_byte in F8. exact F8.
  - apply load8_byte in F9. rewrite F9, Z.mod_small by lia. reflexivity.
  - apply load32_field; assumption.
  - apply load32_field; assumption.
  - exists (image 0), csum. split; [|split].
    + rewrite <- (app_nil_r (image csum)), <- (app_nil_r (image 0)).
      unfold image. destruct host; reflexivity.
    + rewrite <- (app_nil_r (image 0)).
      apply ipv4_checksum_header. apply header_image_length.
    + apply load16_field in F10. rewrite F10. f_equal.
      apply Z.mod_small. unfold csum. rewrite rfc1071_checksum_value.
      destruct (sum_words_bound host _ (image 0) (le_n _)) as [P _].
      pose proof (ones_residue_range _ P). lia.
Qed.

Lemma ipv4_send_frame_witness :
  exists call : tx_call,
    ipv4_send LittleEndian zero_stack nic_a 0x0200000A 1 payload8 8 = Ok call /\
    tx_length call = 42 /\
    Z.of_nat (length (tx_frame call)) = 42.
Proof.
  destruct (ipv4_send_frame LittleEndian zero_stack nic_a 0x0200000A 1
              payload8 8)
    as (call & hdr & Hs & Hl & Hn & _);
    [ lia | reflexivity | reflexivity | simpl; lia | lia | lia | ].
  exists call. split; [exact Hs|]. split; [exact Hl | exact Hn].
Defined.

(** C7, as stated for every call, fails when the payload does not fit: with
    2015 payload bytes the copy of the packet behind the link header leaves
    the 2048-byte array, and no frame of 14 + 20 + 2015 bytes is handed to
    the driver. *)
Lemma ipv4_send_frame_too_long :
  ipv4_send LittleEndian zero_stack nic_a 0x0200000A 1 payload2015 2015
  = Fault Write_out_of_bounds /\
  ~ exists call : tx_call,
      ipv4_send LittleEndian zero_stack nic_a 0x0200000A 1 payload2015 2015
      = Ok call /\
      tx_length call = 14 + 20 + 2015.
Proof.
  assert (ipv4_send LittleEndian zero_stack nic_a 0x0200000A 1 payload2015 2015
          = Fault Write_out_of_bounds) as E by (vm_compute; reflexivity).
  split; [exact E|].
  intros (call & H & _). rewrite E in H. discriminate H.
Qed.

(** C9. When the payload length plus the 20-byte header plus the 14-byte
    link header does not exceed the 2048-byte buffers (payload length at
    most 2014), no write of [ipv4_send] leaves its buffer; and when the
    memory it copies from is readable, the call runs to the transmission. *)
Theorem ipv4_send_writes_in_bounds (host : endianness) (stack : nat -> byte)
  (nic : nic_device_t) (dst_ip protocol : Z) (payload : list byte)
  (payload_len : Z) :
  0 <= payload_len <= 2014 ->
  ipv4_send host stack nic dst_ip protocol payload payload_len
    <> Fault Write_out_of_bounds /\
  ((Z.to_nat payload_len <= length payload)%nat ->
   (6 <= length (mac_address nic))%nat ->
   exists call : tx_call,
     ipv4_send host stack nic dst_ip protocol payload payload_len = Ok call).
Proof.
  intros R. split.
  - destruct (le_lt_dec (Z.to_nat payload_len) (length payload)) as [Lp|Lp];
      [destruct (le_lt_dec 6 (length (mac_address nic))) as [Lm|Lm]|].
    + destruct (ipv4_send_ok host stack nic dst_ip protocol payload
                  payload_len R Lp Lm) as (call & -> & _).
      discriminate.
    + unfold ipv4_send.
      assert (buffer_size = 2048%nat) as Bs by reflexivity.
      rewrite send_header_image by (rewrite alloca_length; lia). cbn [bind].
      unfold Hdr.size at 1.
      rewrite memcpy_at by list_length. cbn [bind].
      match goal with
      | |- context [memcpy ?e 0 broadcast_mac 6] => set (E0 := e)
      end.
      assert (length E0 = 2048%nat) as Le by apply alloca_length.
      change E0 with ([] ++ E0) at 1.
      rewrite memcpy_at by list_length. cbn [bind].
      rewrite memcpy_short_source by exact Lm. cbn [bind].
      discriminate.
    + unfold ipv4_send.
      assert (buffer_size = 2048%nat) as Bs by reflexivity.
      rewrite send_header_image by (rewrite alloca_length; lia). cbn [bind].
      rewrite memcpy_short_source by exact Lp. cbn [bind].
      discriminate.
  - intros Lp Lm.
    destruct (ipv4_send_ok host stack nic dst_ip protocol payload
                payload_len R Lp Lm) as (call & E & _).
    exists call. exact E.
Qed.

Lemma ipv4_send_writes_in_bounds_witness :
  0 <= 2014 <= 2014 /\
  ipv4_send BigEndian zero_stack nic_a 0x0200000A 17
    (repeat xff (Z.to_nat 2014)) 2014 <> Fault Write_out_of_bounds.
Proof.
  split; [lia|].
  apply (ipv4_send_writes_in_bounds BigEndian zero_stack nic_a 0x0200000A 17
           (repeat xff (Z.to_nat 2014)) 2014).
  lia.
Defined.

(** ** The header read by [ipv4_receive] *)

(** Summing more bytes than the region holds reads outside it. *)
Lemma checksum_sum_short (host : endianness) :
  forall (k : nat) (data : list byte) (n : nat) (s : Z),
    (length data <= k)%nat ->
    (length data < n)%nat ->
    checksum_sum host data n s = Fault Read_out_of_bounds.
Proof.
  induction k as [|k IH]; intros data n s L S.
  - destruct data; [|simpl in L; lia].
    destruct n as [|[|n]]; [simpl in S; lia | reflexivity | reflexivity].
  - destruct data as [|b0 [|b1 data]]; destruct n as [|[|n]];
      try (simpl in S; lia); try reflexivity.
    unfold checksum_sum. cbn [checksum_words].
    apply IH; simpl in *; lia.
Qed.

Lemma ipv4_checksum_short (host : endianness) (data : list byte) (n : nat) :
  (length data < n)%nat ->
  ipv4_checksum host data n = Fault Read_out_of_bounds.
Proof.
  intros L. rewrite ipv4_checksum_sum.
  rewrite (checksum_sum_short host (length data)) by (try apply le_n; exact L).
  reflexivity.
Qed.

Lemma ipv4_checksum_ok_length (host : endianness) (data : list byte) (n : nat)
  (csum : Z) :
  ipv4_checksum host data n = Ok csum -> (n <= length data)%nat.
Proof.
  intros E. destruct (le_lt_dec n (length data)) as [L|L]; [exact L|].
  rewrite ipv4_checksum_short in E by exact L. discriminate E.
Qed.

Lemma read_bytes_ok (mem : list byte) (off n : nat) :
  (off + n <= length mem)%nat ->
  exists bs : list byte, read_bytes mem off n = Ok bs /\ length bs = n.
Proof.
  intros L. unfold read_bytes.
  destruct (Nat.leb_spec (off + n) (length mem)); [|lia].
  eexists. split; [reflexivity|].
  rewrite length_firstn, length_skipn. lia.
Qed.

Lemma load8_range (mem : list byte) (off : nat) (v : Z) :
  load8 mem off = Ok v -> 0 <= v < 256.
Proof.
  unfold load8, read_bytes.
  destruct (off + 1 <=? length mem)%nat; [|discriminate].
  cbn [bind]. destruct (skipn off mem) as [|b rest]; cbn [firstn le_decode].
  - intros [= <-]. lia.
  - intros [= <-]. pose proof (byte_val_range b). lia.
Qed.

(** The same two bytes read in the order of the machine and passed through
    [ntohs], or read as a big-endian number. *)
Lemma load16_ntohs (host : endianness) (mem : list byte) (off : nat) :
  (v <- load16 host mem off ;; Ok (ntohs host v)) = load16 BigEndian mem off.
Proof.
  unfold load16.
  destruct (le_lt_dec (off + 2) (length mem)) as [L|L].
  - destruct (read_bytes_ok mem off 2 L) as (bs & -> & Lb).
    destruct bs as [|b0 [|b1 [|? ?]]]; try discriminate Lb.
    cbn [bind]. rewrite ntohs_decode. reflexivity.
  - unfold read_bytes.
    destruct (Nat.leb_spec (off + 2) (length mem)); [lia | reflexivity].
Qed.

(** [ipv4_receive] once the header fields it reads are known. *)
Lemma ipv4_receive_loaded (host : endianness) (nic : nic_device_t)
  (packet : list byte) (len csum dst vi tl proto src : Z) :
  ipv4_checksum host packet Hdr.size = Ok csum ->
  load32 host packet Hdr.destination_address = Ok dst ->
  load8 packet Hdr.version_ihl = Ok vi ->
  load16 BigEndian packet Hdr.total_length = Ok tl ->
  load8 packet Hdr.protocol = Ok proto ->
  load32 host packet Hdr.source_address = Ok src ->
  ipv4_receive host nic packet len =
  if negb (csum =? 0) then Ok Rx_drop_checksum else
  if negb (dst =? ip_address nic) && negb (dst =? 0xFFFFFFFF)
  then Ok Rx_drop_address else
  let ip_hdr_len := u16 (Z.land vi 0x0F * 4) in
  let payload_len := u16 (tl - ip_hdr_len) in
  let p := {| payload_offset := Z.to_nat ip_hdr_len;
              payload_length := payload_len |} in
  if proto =? 1 then Ok (Rx_icmp src p)
  else Ok (Rx_print src proto p
             (if 0 <? payload_len
              then read_bytes packet (Z.to_nat ip_hdr_len)
                     (Z.to_nat (if 16 <? payload_len then 16 else payload_len))
              else Ok [])).
Proof.
  intros Hc Hd Hv Ht Hp Hs. unfold ipv4_receive.
  rewrite Hc. cbn [bind]. destruct (negb (csum =? 0)); [reflexivity|].
  rewrite Hd. cbn [bind].
  destruct (negb (dst =? ip_address nic) && negb (dst =? 0xFFFFFFFF));
    [reflexivity|].
  rewrite Hv. cbn [bind].
  rewrite <- (load16_ntohs host) in Ht.
  destruct (load16 host packet Hdr.total_length) as [v|f];
    cbn [bind] in Ht; [|discriminate Ht].
  injection Ht as Ht. cbn [bind]. rewrite Ht, Hp. cbn [bind].
  rewrite Hs. cbn [bind]. reflexivity.
Qed.

(** A packet of 20 bytes or more has all of its header fields readable. *)
Lemma header_loads (host : endianness) (packet : list byte) :
  (20 <= length packet)%nat ->
  exists csum dst vi tl proto src : Z,
    ipv4_checksum host packet Hdr.size = Ok csum /\
    load32 host packet Hdr.destination_address = Ok dst /\
    load8 packet Hdr.version_ihl = Ok vi /\
    load16 BigEndian packet Hdr.total_length = Ok tl /\
    load8 packet Hdr.protocol = Ok proto /\
    load32 host packet Hdr.source_address = Ok src.
Proof.
  intros L.
  assert (exists csum, ipv4_checksum host packet Hdr.size = Ok csum)
    as (csum & Hc).
  { rewrite <- (firstn_skipn 20 packet).
    eexists. apply ipv4_checksum_header. rewrite length_firstn. lia. }
  exists csum.
  unfold load8, load16, load32, Hdr.destination_address, Hdr.version_ihl,
    Hdr.total_length, Hdr.protocol, Hdr.source_address.
  destruct (read_bytes_ok packet 16 4 ltac:(lia)) as (? & -> & _).
  destruct (read_bytes_ok packet 0 1 ltac:(lia)) as (? & -> & _).
  destruct (read_bytes_ok packet 2 2 ltac:(lia)) as (? & -> & _).
  destruct (read_bytes_ok packet 9 1 ltac:(lia)) as (? & -> & _).
  destruct (read_bytes_ok packet 12 4 ltac:(lia)) as (? & -> & _).
  cbn [bind]. do 5 eexists. repeat split; try reflexivity. exact Hc.
Qed.

(** ** The receive path *)

Lemma ipv4_receive_short (host : endianness) (nic : nic_device_t)
  (packet : list byte) (len : Z) :
  (length packet < 20)%nat ->
  ipv4_receive host nic packet len = Fault Read_out_of_bounds.
Proof.
  intros L. unfold ipv4_receive.
  rewrite ipv4_checksum_short by exact L. reflexivity.
Qed.

(** C3 fails on the code. A frame shorter than 20 bytes should be rejected
    without a read past its end; on a frame of 10 bytes [ipv4_receive]
    sums 20 bytes from the start of the packet whatever [len] is, and so
    reads past the end of the frame. *)
Theorem ipv4_receive_short_frame :
  length short_frame = 10%nat /\
  ipv4_receive LittleEndian nic_b short_frame 10 = Fault Read_out_of_bounds /\
  ipv4_receive BigEndian nic_b short_frame 10 = Fault Read_out_of_bounds.
Proof.
  split; [reflexivity|].
  split; apply ipv4_receive_short; simpl; lia.
Qed.

(** C5. When [ipv4_checksum] over the 20 header bytes as received is not
    zero, [ipv4_receive] returns at step 1: no fault, no handler called,
    and nothing but the drop as its outcome. *)
Theorem ipv4_receive_bad_checksum (host : endianness) (nic : nic_device_t)
  (packet : list byte) (len csum : Z) :
  ipv4_checksum host packet Hdr.size = Ok csum ->
  csum <> 0 ->
  ipv4_receive host nic packet len = Ok Rx_drop_checksum /\
  dispatched Rx_drop_checksum = None.
Proof.
  intros Hc Hn. split; [|reflexivity].
  unfold ipv4_receive. rewrite Hc. cbn [bind].
  destruct (Z.eqb_spec csum 0) as [E|_]; [contradiction | reflexivity].
Qed.

Lemma ipv4_receive_bad_checksum_witness :
  ipv4_checksum LittleEndian (hdr_bad ++ payload8) Hdr.size = Ok 65534 /\
  ipv4_receive LittleEndian nic_b (hdr_bad ++ payload8) 28
  = Ok Rx_drop_checksum.
Proof.
  split; [reflexivity|].
  apply (ipv4_receive_bad_checksum LittleEndian nic_b (hdr_bad ++ payload8)
           28 65534); [reflexivity | discriminate].
Defined.

Lemma not_filtered (dst ip : Z) :
  negb (dst =? ip) && negb (dst =? 0xFFFFFFFF) = false <->
  dst = ip \/ dst = 0xFFFFFFFF.
Proof.
  destruct (Z.eqb_spec dst ip), (Z.eqb_spec dst 0xFFFFFFFF); cbn;
    intuition congruence.
Qed.

(** C6. A frame that passes the checksum check reaches the dispatch exactly
    when its destination address is the address of the device or the
    all-ones address; otherwise [ipv4_receive] returns at step 2 and no
    handler is reached. *)
Theorem ipv4_receive_destination_filter (host : endianness)
  (nic : nic_device_t) (packet : list byte) (len : Z) :
  ipv4_checksum host packet Hdr.size = Ok 0 ->
  exists (dst : Z) (event : rx_event),
    load32 host packet Hdr.destination_address = Ok dst /\
    ipv4_receive host nic packet len = Ok event /\
    (dispatched event <> None <->
     dst = ip_address nic \/ dst = 0xFFFFFFFF) /\
    (~ (dst = ip_address nic \/ dst = 0xFFFFFFFF) ->
     event = Rx_drop_address).
Proof.
  intros Hc.
  pose proof (ipv4_checksum_ok_length _ _ _ _ Hc) as L. unfold Hdr.size in L.
  destruct (header_loads host packet L)
    as (csum & dst & vi & tl & proto & src & Hc' & Hd & Hv & Ht & Hp & Hs).
  rewrite Hc in Hc'. injection Hc' as <-.
  exists dst.
  rewrite (ipv4_receive_loaded host nic packet len 0 dst vi tl proto src)
    by assumption.
  cbn [Z.eqb negb].
  destruct (negb (dst =? ip_address nic) && negb (dst =? 0xFFFFFFFF)) eqn:F.
  - assert (~ (dst = ip_address nic \/ dst = 0xFFFFFFFF)) as N.
    { intros H. apply not_filtered in H. congruence. }
    eexists. split; [exact Hd|]. split; [reflexivity|].
    cbn [dispatched]. split; [|reflexivity].
    split; [congruence | contradiction].
  - apply not_filtered in F.
    destruct (proto =? 1); cbv zeta;
      (eexists; split; [exact Hd|]; split; [reflexivity|];
       cbn [dispatched]; split; [|contradiction];
       split; [intros _; exact F | discriminate]).
Qed.

Lemma ipv4_receive_destination_filter_witness :
  ipv4_checksum LittleEndian (hdr_icmp ++ payload8) Hdr.size = Ok 0 /\
  exists event : rx_event,
    ipv4_receive LittleEndian nic_a (hdr_icmp ++ payload8) 28 = Ok event /\
    event = Rx_drop_address.
Proof.
  split; [reflexivity|].
  destruct (ipv4_receive_destination_filter LittleEndian nic_a
              (hdr_icmp ++ payload8) 28)
    as (dst & event & Hd & He & _ & Hn); [reflexivity|].
  exists event. split; [exact He|].
  apply Hn. injection Hd as <-. cbn. intros [H|H]; discriminate H.
Defined.

Lemma load16_range (host : endianness) (mem : list byte) (off : nat) (v : Z) :
  load16 host mem off = Ok v -> 0 <= v <= 65535.
Proof.
  unfold load16. intros E.
  destruct (le_lt_dec (off + 2) (length mem)) as [L|L].
  - destruct (read_bytes_ok mem off 2 L) as (bs & Hb & Lb).
    rewrite Hb in E. cbn [bind] in E. injection E as <-.
    destruct bs as [|b0 [|b1 [|? ?]]]; try discriminate Lb.
    apply decode_pair_range.
  - unfold read_bytes in E.
    destruct (Nat.leb_spec (off + 2) (length mem)); [lia | discriminate E].
Qed.

Lemma land_15_range (v : Z) : 0 <= Z.land v 0x0F <= 15.
Proof.
  change (Z.land v 0x0F) with (Z.land v (Z.ones 4)).
  rewrite Z.land_ones by lia. change (2 ^ 4) with 16.
  pose proof (Z.mod_pos_bound v 16 ltac:(lia)). lia.
Qed.

(** C4, as amended. A frame accepted by the checksum and destination checks,
    whose total length (decoded from network byte order) is at least the
    header length IHL x 4 and at most the length of the frame, is
    dispatched whatever its IHL is: the handler gets the offset IHL x 4 and
    the length total_length - IHL x 4, and these bytes lie inside the
    frame. *)
Theorem ipv4_receive_dispatches (host : endianness) (nic : nic_device_t)
  (packet : list byte) (len dst vi tl : Z) :
  ipv4_checksum host packet Hdr.size = Ok 0 ->
  load32 host packet Hdr.destination_address = Ok dst ->
  dst = ip_address nic \/ dst = 0xFFFFFFFF ->
  load8 packet Hdr.version_ihl = Ok vi ->
  load16 BigEndian packet Hdr.total_length = Ok tl ->
  Z.land vi 0x0F * 4 <= tl <= Z.of_nat (length packet) ->
  exists (event : rx_event) (p : payload_ref),
    ipv4_receive host nic packet len = Ok event /\
    dispatched event = Some p /\
    payload_offset p = Z.to_nat (Z.land vi 0x0F * 4) /\
    payload_length p = tl - Z.land vi 0x0F * 4 /\
    payload_bytes packet p
    = Ok (firstn (Z.to_nat (tl - Z.land vi 0x0F * 4))
            (skipn (Z.to_nat (Z.land vi 0x0F * 4)) packet)).
Proof.
  intros Hc Hd Hf Hv Ht B.
  pose proof (ipv4_checksum_ok_length _ _ _ _ Hc) as L. unfold Hdr.size in L.
  destruct (header_loads host packet L)
    as (csum' & dst' & vi' & tl' & proto & src & _ & _ & _ & _ & Hp & Hs).
  rewrite (ipv4_receive_loaded host nic packet len 0 dst vi tl proto src)
    by assumption.
  cbn [Z.eqb negb]. apply not_filtered in Hf. rewrite Hf.
  pose proof (land_15_range vi) as Rv.
  pose proof (load16_range _ _ _ _ Ht) as Rt.
  set (hl := Z.land vi 0x0F * 4) in *.
  assert (u16 hl = hl) as Eh by (apply Z.mod_small; lia).
  cbv zeta. rewrite Eh.
  assert (u16 (tl - hl) = tl - hl) as El by (apply Z.mod_small; lia).
  rewrite El.
  set (p := {| payload_offset := Z.to_nat hl; payload_length := tl - hl |}).
  assert (payload_bytes packet p
          = Ok (firstn (Z.to_nat (tl - hl)) (skipn (Z.to_nat hl) packet)))
    as Hb.
  { unfold payload_bytes, read_bytes. cbn [payload_offset payload_length p].
    destruct (Nat.leb_spec (Z.to_nat hl + Z.to_nat (tl - hl)) (length packet));
      [reflexivity | lia]. }
  destruct (proto =? 1); eexists; exists p;
    (split; [reflexivity|]); repeat split; exact Hb.
Qed.

Lemma ipv4_receive_dispatches_witness :
  Z.land 0x46 0x0F * 4 <= 28 <= Z.of_nat (length (hdr_ihl6 ++ payload8)) /\
  exists (event : rx_event) (p : payload_ref),
    ipv4_receive LittleEndian nic_b (hdr_ihl6 ++ payload8) 28 = Ok event /\
    dispatched event = Some p /\
    payload_offset p = 24%nat /\
    payload_length p = 4.
Proof.
  split; [cbn; lia|].
  destruct (ipv4_receive_dispatches LittleEndian nic_b (hdr_ihl6 ++ payload8)
              28 0x0200000A 0x46 28)
    as (event & p & He & Hd & Ho & Hl & _);
    [ reflexivity | reflexivity | left; reflexivity | reflexivity
    | reflexivity | cbn; lia | ].
  exists event, p. repeat split; assumption.
Defined.

(** C4, as stated, fails: a frame whose header length field is 6, with a
    valid checksum and the address of the device as destination, is not
    rejected; its last 4 bytes are handed to the ICMP handler. *)
Lemma ipv4_receive_ihl6_dispatched :
  ipv4_checksum LittleEndian (hdr_ihl6 ++ payload8) Hdr.size = Ok 0 /\
  load32 LittleEndian (hdr_ihl6 ++ payload8) Hdr.destination_address
  = Ok (ip_address nic_b) /\
  (v <- load8 (hdr_ihl6 ++ payload8) Hdr.version_ihl ;; Ok (Z.land v 0x0F))
  = Ok 6 /\
  ipv4_receive LittleEndian nic_b (hdr_ihl6 ++ payload8) 28
  = Ok (Rx_icmp (ip_address nic_a)
          {| payload_offset := 24; payload_length := 4 |}) /\
  dispatched (Rx_icmp (ip_address nic_a)
                {| payload_offset := 24; payload_length := 4 |}) <> None.
Proof.
  repeat split; try reflexivity. discriminate.
Qed.

(** The lengths are not checked against each other either: with a total
    length below the header length the 16-bit payload length wraps, and the
    diagnostic branch reads the payload bytes it prints past the end of the
    frame. *)
Lemma ipv4_receive_total_length_wraps :
  ipv4_receive LittleEndian nic_b hdr_len0 20
  = Ok (Rx_print (ip_address nic_a) 17
          {| payload_offset := 20; payload_length := 65516 |}
          (Fault Read_out_of_bounds)).
Proof. vm_compute. reflexivity. Qed.

(** ** Sending, then receiving *)

(** C1, as amended. For every payload of at most 2014 bytes, protocol and
    destination, when the destination is the address of the receiving
    device or the all-ones address, the packet [ipv4_send] hands to the
    driver (the frame without its 14-byte link header), fed to
    [ipv4_receive], reaches the handler of its protocol with exactly the
    payload, its length, the protocol and, as source, the address of the
    sending device. *)
Theorem send_receive_roundtrip (host : endianness) (stack : nat -> byte)
  (tx_nic rx_nic : nic_device_t) (dst_ip protocol : Z) (payload : list byte)
  (len : Z) :
  Z.of_nat (length payload) <= 2014 ->
  length (mac_address tx_nic) = 6%nat ->
  0 <= ip_address tx_nic < 2 ^ 32 ->
  0 <= dst_ip < 2 ^ 32 ->
  0 <= protocol < 256 ->
  dst_ip = ip_address rx_nic \/ dst_ip = 0xFFFFFFFF ->
  exists (call : tx_call) (p : payload_ref),
    ipv4_send host stack tx_nic dst_ip protocol payload
      (Z.of_nat (length payload)) = Ok call /\
    ipv4_receive host rx_nic (skipn 14 (tx_frame call)) len
    = Ok (if protocol =? 1
          then Rx_icmp (ip_address tx_nic) p
          else Rx_print (ip_address tx_nic) protocol p
                 (Ok (firstn 16 payload))) /\
    payload_length p = Z.of_nat (length payload) /\
    payload_bytes (skipn 14 (tx_frame call)) p = Ok payload.
Proof.
  intros Ln Lm Ra Rd Rp Hf.
  set (n := Z.of_nat (length payload)) in *.
  destruct (ipv4_send_ok host stack tx_nic dst_ip protocol payload n)
    as (call & Hs & _ & Hfr); try lia.
  set (image := header_image host tx_nic dst_ip protocol n) in *.
  set (csum := Rfc1071.checksum host (image 0)) in *.
  assert (length (image csum) = 20%nat) as Lh by apply header_image_length.
  rewrite !firstn_all2 in Hfr by lia.
  assert (skipn 14 (tx_frame call) = image csum ++ payload) as Ep.
  { rewrite Hfr, !app_assoc, <- (app_assoc _ (image csum)).
    match goal with
    | |- skipn 14 (?pre ++ _) = _ =>
        replace 14%nat with (length pre + 0)%nat at 1 by list_length
    end.
    rewrite skipn_prefix. reflexivity. }
  destruct (header_image_read host tx_nic dst_ip protocol n csum)
    as (F0 & _ & F2 & _ & _ & _ & F9 & _ & F12 & F16).
  fold image in F0, F2, F9, F12, F16.
  assert (forall off k, (off + k <= 20)%nat ->
            read_bytes (image csum ++ payload) off k
            = read_bytes (image csum) off k) as Rh
    by (intros; apply read_bytes_app_l; lia).
  exists call, {| payload_offset := 20; payload_length := n |}.
  rewrite Ep.
  split; [exact Hs|].
  rewrite (ipv4_receive_loaded host rx_nic (image csum ++ payload) len
             0 dst_ip 0x45 (20 + n) protocol (ip_address tx_nic)).
  - cbn [Z.eqb negb]. apply not_filtered in Hf. rewrite Hf. cbv zeta.
    change (u16 (Z.land 69 15 * 4)) with 20.
    replace (u16 (20 + n - 20)) with n
      by (unfold u16; rewrite Z.mod_small; lia).
    change (Z.to_nat 20) with 20%nat.
    assert (read_bytes (image csum ++ payload) 20 (length payload)
            = Ok payload) as Rp'.
    { rewrite <- Lh. rewrite read_bytes_app_r by lia.
      rewrite firstn_all. reflexivity. }
    split; [|split].
    + f_equal. destruct (protocol =? 1); [reflexivity|].
      f_equal. destruct (Z.ltb_spec 0 n) as [P|Z0].
      * rewrite <- Lh. rewrite read_bytes_app_r
          by (destruct (16 <? n) eqn:E; lia).
        f_equal. destruct (Z.ltb_spec 16 n); [reflexivity|].
        rewrite !firstn_all2 by lia. reflexivity.
      * destruct payload; [reflexivity | simpl in n; lia].
    + reflexivity.
    + unfold payload_bytes. cbn [payload_offset payload_length].
      unfold n. rewrite Nat2Z.id. exact Rp'.
  - rewrite ipv4_checksum_header by exact Lh. f_equal.
    apply header_image_checksum_zero.
  - apply load32_field; [exact Rd|].
    rewrite Rh by (unfold Hdr.destination_address; lia). exact F16.
  - unfold load8. rewrite Rh by (unfold Hdr.version_ihl; lia).
    apply load8_byte in F0. exact F0.
  - unfold load16. rewrite Rh by (unfold Hdr.total_length; lia).
    fold (load16 BigEndian (image csum) Hdr.total_length).
    unfold image. rewrite header_image_total_length.
    rewrite Z.mod_small by lia. reflexivity.
  - unfold load8. rewrite Rh by (unfold Hdr.protocol; lia).
    apply load8_byte in F9. rewrite Z.mod_small in F9 by lia. exact F9.
  - apply load32_field; [exact Ra|].
    rewrite Rh by (unfold Hdr.source_address; lia). exact F12.
Qed.

Lemma send_receive_roundtrip_witness :
  exists (call : tx_call) (p : payload_ref),
    ipv4_send LittleEndian zero_stack nic_a (ip_address nic_b) 1 payload8 8
    = Ok call /\
    ipv4_receive LittleEndian nic_b (skipn 14 (tx_frame call)) 28
    = Ok (Rx_icmp (ip_address nic_a) p) /\
    payload_length p = 8 /\
    payload_bytes (skipn 14 (tx_frame call)) p = Ok payload8.
Proof.
  destruct (send_receive_roundtrip LittleEndian zero_stack nic_a nic_b
              (ip_address nic_b) 1 payload8 28)
    as (call & p & Hs & Hr & Hl & Hb);
    [ simpl; lia | reflexivity | simpl; lia | simpl; lia | lia
    | left; reflexivity | ].
  exists call, p. repeat split; assumption.
Defined.

(** C1, as stated, fails. With the address of the sending device as the
    address of the receiving device, a packet sent to another destination
    is dropped by the destination filter and no handler sees the payload;
    and a payload of 2015 bytes is never sent, the copy of the packet
    leaving the 2048-byte array. *)
Lemma send_receive_foreign_destination :
  (call <- ipv4_send LittleEndian zero_stack nic_a (ip_address nic_b) 1
             payload8 8 ;;
   ipv4_receive LittleEndian nic_a (skipn 14 (tx_frame call)) 28)
  = Ok Rx_drop_address /\
  ipv4_send LittleEndian zero_stack nic_a (ip_address nic_a) 1 payload2015 2015
  = Fault Write_out_of_bounds.
Proof.
  split; vm_compute; reflexivity.
Qed.

(** ** Payloads that do not fit *)

Lemma memcpy_overflow (dst src : list byte) (off n : nat) :
  (n <= length src)%nat ->
  (length dst < off + n)%nat ->
  memcpy dst off src n = Fault Write_out_of_bounds.
Proof.
  intros Ls Ld. unfold memcpy, read_bytes, write_bytes.
  destruct (Nat.leb_spec (0 + n) (length src)); [|lia].
  cbn [bind skipn].
  assert (length (firstn n src) = n) as -> by (rewrite length_firstn; lia).
  destruct (Nat.leb_spec (off + n) (length dst)); [lia | reflexivity].
Qed.

(** Beyond 2014 payload bytes a copy of [ipv4_send] leaves its array: the
    bound of C9 cannot be relaxed. *)
Lemma ipv4_send_overflow (host : endianness) (stack : nat -> byte)
  (nic : nic_device_t) (dst_ip protocol : Z) (payload : list byte)
  (payload_len : Z) :
  2014 < payload_len <= 65535 ->
  (Z.to_nat payload_len <= length payload)%nat ->
  (6 <= length (mac_address nic))%nat ->
  ipv4_send host stack nic dst_ip protocol payload payload_len
  = Fault Write_out_of_bounds.
Proof.
  intros R Lp Lm. unfold ipv4_send.
  assert (buffer_size = 2048%nat) as Bs by reflexivity.
  rewrite send_header_image by (rewrite alloca_length; lia). cbn [bind].
  set (hdr := header_image host nic dst_ip protocol payload_len _).
  assert (length hdr = 20%nat) as Lh by apply header_image_length.
  set (n := Z.to_nat payload_len) in *.
  unfold Hdr.size at 1.
  destruct (le_lt_dec n 2028) as [S|L].
  - rewrite memcpy_at by list_length. cbn [bind].
    match goal with
    | |- context [memcpy ?e 0 broadcast_mac 6] => set (E0 := e)
    end.
    assert (length E0 = 2048%nat) as Le by apply alloca_length.
    change E0 with ([] ++ E0) at 1.
    rewrite memcpy_at by list_length. cbn [bind].
    rewrite memcpy_at by list_length. cbn [bind].
    rewrite memcpy_at by list_length. cbn [bind].
    rewrite ip_packet_len_small by lia.
    rewrite memcpy_overflow by list_length. reflexivity.
  - rewrite memcpy_overflow by list_length. reflexivity.
Qed.

(** A copy longer than what is left of the destination does not succeed. *)
Lemma memcpy_too_long (dst src : list byte) (off n : nat) :
  (length dst < off + n)%nat ->
  exists f : fault, memcpy dst off src n = Fault f.
Proof.
  intros L. destruct (le_lt_dec n (length src)) as [S|S].
  - exists Write_out_of_bounds. apply memcpy_overflow; assumption.
  - exists Read_out_of_bounds. apply memcpy_short_source. exact S.
Qed.

(** C10, as amended. For every call of [ipv4_send] with a payload length
    above 65515 (and within 16 bits), the total length field written into
    the header is (20 + payload_len) modulo 2^16, which is
    payload_len - 65516 and not 20 + payload_len; the call then stops at
    the copy of the payload into that buffer, which leaves the array, and
    reaches no transmission. *)
Theorem ipv4_send_total_length_wraps (host : endianness) (stack : nat -> byte)
  (nic : nic_device_t) (dst_ip protocol : Z) (payload : list byte)
  (payload_len : Z) :
  65515 < payload_len <= 65535 ->
  exists (buffer : list byte) (f : fault),
    ipv4_send_header host (alloca stack buffer_size) nic dst_ip protocol
      payload_len = Ok buffer /\
    load16 BigEndian buffer Hdr.total_length
      = Ok ((20 + payload_len) mod 2 ^ 16) /\
    (20 + payload_len) mod 2 ^ 16 = payload_len - 65516 /\
    (20 + payload_len) mod 2 ^ 16 <> 20 + payload_len /\
    memcpy buffer Hdr.size payload (Z.to_nat payload_len) = Fault f /\
    ipv4_send host stack nic dst_ip protocol payload payload_len = Fault f.
Proof.
  intros R.
  assert ((20 + payload_len) mod 2 ^ 16 = payload_len - 65516) as E.
  { symmetry. apply (Z.mod_unique_pos _ _ 1); lia. }
  assert (buffer_size = 2048%nat) as Bs by reflexivity.
  set (hdr := header_image host nic dst_ip protocol payload_len
                (Rfc1071.checksum host
                   (header_image host nic dst_ip protocol payload_len 0))).
  assert (ipv4_send_header host (alloca stack buffer_size) nic dst_ip protocol
            payload_len = Ok (hdr ++ skipn 20 (alloca stack buffer_size)))
    as Hh by (apply send_header_image; rewrite alloca_length; lia).
  destruct (memcpy_too_long (hdr ++ skipn 20 (alloca stack buffer_size))
              payload Hdr.size (Z.to_nat payload_len)) as (f & Hf).
  { unfold hdr, Hdr.size.
    rewrite length_app, header_image_length, length_skipn, alloca_length.
    lia. }
  exists (hdr ++ skipn 20 (alloca stack buffer_size)), f.
  split; [exact Hh|]. split; [|split; [exact E|split; [lia|split; [exact Hf|]]]].
  - unfold load16.
    rewrite read_bytes_app_l
      by (unfold hdr; rewrite header_image_length; unfold Hdr.total_length; lia).
    apply header_image_total_length.
  - unfold ipv4_send. rewrite Hh. cbn [bind]. rewrite Hf. reflexivity.
Qed.

Lemma ipv4_send_total_length_wraps_witness :
  exists (buffer : list byte) (f : fault),
    ipv4_send_header LittleEndian (alloca zero_stack buffer_size) nic_a
      (ip_address nic_b) 1 65535 = Ok buffer /\
    load16 BigEndian buffer Hdr.total_length = Ok 19 /\
    ipv4_send LittleEndian zero_stack nic_a (ip_address nic_b) 1
      payload65535 65535 = Fault f.
Proof.
  destruct (ipv4_send_total_length_wraps LittleEndian zero_stack nic_a
              (ip_address nic_b) 1 payload65535 65535)
    as (buffer & f & Hh & Hl & _ & _ & _ & Hs); [lia|].
  exists buffer, f. split; [exact Hh|]. split; [exact Hl | exact Hs].
Defined.

(** C10, as stated, fails on the packet length used for the transmission:
    with 65535 payload bytes the call never reaches the transmission, the
    copy of the payload behind the header leaves the 2048-byte array, so no
    frame of (20 + 65535) mod 2^16 + 14 bytes is handed to the driver. *)
Lemma ipv4_send_wrapped_length_not_sent :
  ipv4_send LittleEndian zero_stack nic_a (ip_address nic_b) 1
    payload65535 65535 = Fault Write_out_of_bounds /\
  ~ exists call : tx_call,
      ipv4_send LittleEndian zero_stack nic_a (ip_address nic_b) 1
        payload65535 65535 = Ok call /\
      tx_length call = (20 + 65535) mod 2 ^ 16 + 14.
Proof.
  assert (ipv4_send LittleEndian zero_stack nic_a (ip_address nic_b) 1
            payload65535 65535 = Fault Write_out_of_bounds) as E
    by (vm_compute; reflexivity).
  split; [exact E|].
  intros (call & H & _). rewrite E in H. discriminate H.
Qed.

(** * Further properties of the checksum *)

Lemma byte_val_inj (a b : byte) : byte_val a = byte_val b -> a = b.
Proof.
  intros E. rewrite <- (byte_of_val a), <- (byte_of_val b), E. reflexivity.
Qed.

Lemma ipv4_checksum_shape (host : endianness) (region rest : list byte) :
  ipv4_checksum host (region ++ rest) (length region) =
  Ok (u16 (Z.lnot (checksum_fold fold_fuel
                     (u32 (Rfc1071.sum_words (Rfc1071.words16 host region)))))).
Proof.
  rewrite ipv4_checksum_sum.
  rewrite (checksum_sum_words host rest (length region))
    by (try apply le_n; change (2 ^ 32) with 4294967296; lia).
  reflexivity.
Qed.

(** X1. [ipv4_checksum] reads the first [length] bytes it is given and no
    other: whatever follows them in memory, the result is the same. *)
Theorem ipv4_checksum_reads_prefix (host : endianness)
  (region rest : list byte) :
  ipv4_checksum host (region ++ rest) (length region) =
  ipv4_checksum host region (length region).
Proof.
  pose proof (ipv4_checksum_shape host region []) as E.
  rewrite app_nil_r in E. rewrite E.
  apply ipv4_checksum_shape.
Qed.

Lemma u16_range (z : Z) : 0 <= u16 z <= 65535.
Proof.
  unfold u16. change (2 ^ 16) with 65536.
  pose proof (Z.mod_pos_bound z 65536 ltac:(lia)). lia.
Qed.

(** X2. [ipv4_checksum] over [n] bytes faults exactly when fewer than [n]
    bytes are readable, and the fault is a read; on [n] readable bytes it
    returns a 16-bit value. *)
Theorem ipv4_checksum_defined (host : endianness) (data : list byte) (n : nat) :
  (forall f : fault,
     ipv4_checksum host data n = Fault f <->
     f = Read_out_of_bounds /\ (length data < n)%nat) /\
  ((n <= length data)%nat ->
   exists c : Z, ipv4_checksum host data n = Ok c /\ 0 <= c <= 65535).
Proof.
  assert ((n <= length data)%nat ->
          exists c : Z, ipv4_checksum host data n = Ok c /\ 0 <= c <= 65535)
    as Hok.
  { intros L.
    assert (length (firstn n data) = n) as E by (rewrite length_firstn; lia).
    pose proof (ipv4_checksum_shape host (firstn n data) (skipn n data)) as S.
    rewrite firstn_skipn, E in S. rewrite S.
    eexists. split; [reflexivity | apply u16_range]. }
  split; [|exact Hok].
  intros f. split.
  - intros E. destruct (le_lt_dec n (length data)) as [L|L].
    + destruct (Hok L) as (c & Hc & _). rewrite Hc in E. discriminate E.
    + rewrite ipv4_checksum_short in E by exact L.
      injection E as <-. split; [reflexivity | exact L].
  - intros [-> L]. apply ipv4_checksum_short. exact L.
Qed.

Lemma sum_words_app (a b : list Z) :
  Rfc1071.sum_words (a ++ b) = Rfc1071.sum_words a + Rfc1071.sum_words b.
Proof.
  induction a as [|x a IH]; cbn [app Rfc1071.sum_words fold_right].
  - reflexivity.
  - fold (Rfc1071.sum_words (a ++ b)). fold (Rfc1071.sum_words a).
    rewrite IH. lia.
Qed.

(** Behind an even number of bytes the words start afresh. *)
Lemma words16_app_even (host : endianness) (rest : list byte) :
  forall (k : nat) (region : list byte),
    (length region <= k)%nat ->
    Nat.even (length region) = true ->
    Rfc1071.words16 host (region ++ rest) =
    Rfc1071.words16 host region ++ Rfc1071.words16 host rest.
Proof.
  induction k as [|k IH]; intros region L E.
  - destruct region; [reflexivity | simpl in L; lia].
  - destruct region as [|b0 [|b1 region]].
    + reflexivity.
    + discriminate E.
    + cbn [app Rfc1071.words16]. f_equal.
      apply IH; [simpl in L; lia | exact E].
Qed.

Lemma ipv4_checksum_rfc1071_bounded (host : endianness) (region : list byte) :
  Z.of_nat (length region) <= 131074 ->
  ipv4_checksum host region (length region) =
  Ok (Rfc1071.checksum host region).
Proof.
  intros L.
  destruct (sum_words_bound host (length region) region (le_n _)) as [_ B].
  rewrite <- (app_nil_r region) at 1.
  apply ipv4_checksum_prefix. change (2 ^ 32) with 4294967296. lia.
Qed.

(** X3. Appending to a region of even length its own checksum, stored as a
    16-bit value of the machine, gives a region whose checksum is zero. *)
Theorem ipv4_checksum_appended_verifies (host : endianness)
  (region : list byte) (c : Z) :
  Nat.even (length region) = true ->
  Z.of_nat (length region) <= 131072 ->
  ipv4_checksum host region (length region) = Ok c ->
  ipv4_checksum host (region ++ encode host 2 c) (length region + 2) = Ok 0.
Proof.
  intros E L Hc.
  rewrite ipv4_checksum_rfc1071_bounded in Hc by lia. injection Hc as <-.
  set (s := Rfc1071.sum_words (Rfc1071.words16 host region)).
  destruct (sum_words_bound host (length region) region (le_n _)) as [P B].
  fold s in P, B.
  pose proof (ones_residue_range s P) as R.
  rewrite rfc1071_checksum_value. fold s.
  set (c := 65535 - ones_residue s).
  replace (length region + 2)%nat with (length (region ++ encode host 2 c))
    by (rewrite length_app, encode_length; reflexivity).
  assert (Rfc1071.sum_words (Rfc1071.words16 host (region ++ encode host 2 c))
          = s + c) as Es.
  { rewrite (words16_app_even host _ (length region)) by (try apply le_n; exact E).
    rewrite sum_words_app. fold s. f_equal.
    transitivity (decode host (encode host 2 c) + 0).
    - destruct host; reflexivity.
    - rewrite decode_encode_16, Z.mod_small by lia. lia. }
  rewrite ipv4_checksum_rfc1071_bounded
    by (rewrite length_app, encode_length; lia).
  f_equal. rewrite rfc1071_checksum_value, Es. unfold c.
  rewrite ones_residue_cancel by exact P. reflexivity.
Qed.

Lemma ipv4_checksum_appended_verifies_witness :
  ipv4_checksum BigEndian payload8 8 = Ok 61419 /\
  ipv4_checksum BigEndian (payload8 ++ encode BigEndian 2 61419) 10 = Ok 0.
Proof.
  split; [reflexivity|].
  apply (ipv4_checksum_appended_verifies BigEndian payload8 61419);
    [reflexivity | simpl; lia | reflexivity].
Defined.

(** * The checksum and the byte order *)

Lemma ones_residue_spec (x : Z) :
  0 <= x ->
  exists q : Z,
    x = ones_residue x + 65535 * q /\
    (x = 0 -> ones_residue x = 0) /\
    (0 < x -> 1 <= ones_residue x <= 65535).
Proof.
  intros P. unfold ones_residue.
  destruct (Z.eqb_spec x 0) as [->|N].
  - exists 0. lia.
  - exists ((x - 1) / 65535).
    pose proof (Z.div_mod (x - 1) 65535 ltac:(lia)).
    pose proof (Z.mod_pos_bound (x - 1) 65535 ltac:(lia)). lia.
Qed.

Lemma bswap16_bytes (hi lo : Z) :
  0 <= hi < 256 -> 0 <= lo < 256 -> bswap16 (256 * hi + lo) = 256 * lo + hi.
Proof.
  intros Hh Hl. rewrite bswap16_value.
  assert ((256 * hi + lo) mod 256 = lo) as ->
    by (symmetry; apply (Z.mod_unique_pos _ _ hi); lia).
  assert ((256 * hi + lo) / 256 = hi) as ->
    by (symmetry; apply (Z.div_unique_pos _ 256 _ lo); lia).
  rewrite Z.mod_small by lia. lia.
Qed.

(** The sums of the words of a region in the two byte orders: each is 256
    times the other, modulo 65535. *)
Lemma sum_words_swapped :
  forall (k : nat) (region : list byte),
    (length region <= k)%nat ->
    Nat.even (length region) = true ->
    exists A B : Z,
      0 <= A /\ 0 <= B /\
      256 * Rfc1071.sum_words (Rfc1071.words16 LittleEndian region)
      = Rfc1071.sum_words (Rfc1071.words16 BigEndian region) + 65535 * B /\
      256 * Rfc1071.sum_words (Rfc1071.words16 BigEndian region)
      = Rfc1071.sum_words (Rfc1071.words16 LittleEndian region) + 65535 * A.
Proof.
  induction k as [|k IH]; intros region L E.
  - destruct region; [|simpl in L; lia]. exists 0, 0. cbn. lia.
  - destruct region as [|b0 [|b1 region]].
    + exists 0, 0. cbn. lia.
    + discriminate E.
    + destruct (IH region ltac:(simpl in L; lia) E) as (A & B & PA & PB & E1 & E2).
      pose proof (byte_val_range b0). pose proof (byte_val_range b1).
      exists (A + byte_val b0), (B + byte_val b1).
      cbn [Rfc1071.words16 Rfc1071.sum_words fold_right decode le_decode rev app].
      fold (Rfc1071.sum_words (Rfc1071.words16 LittleEndian region)).
      fold (Rfc1071.sum_words (Rfc1071.words16 BigEndian region)).
      lia.
Qed.

(** The checksum of the specification on a region of even length: in one
    byte order it is the checksum in the other with its bytes swapped. *)
Lemma rfc1071_checksum_swapped (region : list byte) :
  Nat.even (length region) = true ->
  Rfc1071.checksum BigEndian region
  = bswap16 (Rfc1071.checksum LittleEndian region) /\
  0 <= Rfc1071.checksum LittleEndian region <= 65535.
Proof.
  intros E.
  rewrite !rfc1071_checksum_value.
  destruct (sum_words_swapped _ region (le_n _) E) as (A & B & PA & PB & E1 & E2).
  destruct (sum_words_bound LittleEndian _ region (le_n _)) as [PL _].
  destruct (sum_words_bound BigEndian _ region (le_n _)) as [PB' _].
  set (sl := Rfc1071.sum_words (Rfc1071.words16 LittleEndian region)) in *.
  set (sb := Rfc1071.sum_words (Rfc1071.words16 BigEndian region)) in *.
  destruct (ones_residue_spec sl PL) as (ql & Ql & Zl & Nl).
  destruct (ones_residue_spec sb PB') as (qb & Qb & Zb & Nb).
  set (rl := ones_residue sl) in *. set (rb := ones_residue sb) in *.
  assert (0 <= rl <= 65535) as Rl by (apply ones_residue_range; exact PL).
  assert (0 <= rb <= 65535) as Rb by (apply ones_residue_range; exact PB').
  pose proof (Z.div_mod rl 256 ltac:(lia)) as D.
  pose proof (Z.mod_pos_bound rl 256 ltac:(lia)) as M.
  assert (0 <= rl / 256 < 256) as Q
    by (split; [apply Z.div_pos | apply Z.div_lt_upper_bound]; lia).
  set (hi := rl / 256) in *. set (lo := rl mod 256) in *.
  assert (rb = 256 * lo + hi) as Erb by lia.
  split; [|lia].
  replace (65535 - rl) with (256 * (255 - hi) + (255 - lo)) by lia.
  rewrite bswap16_bytes by lia. lia.
Qed.

Lemma bswap16_zero (c : Z) : 0 <= c <= 65535 -> (c = 0 <-> bswap16 c = 0).
Proof.
  intros R.
  pose proof (Z.div_mod c 256 ltac:(lia)) as D.
  pose proof (Z.mod_pos_bound c 256 ltac:(lia)) as M.
  assert (0 <= c / 256 < 256) as Q
    by (split; [apply Z.div_pos | apply Z.div_lt_upper_bound]; lia).
  rewrite D at 2. rewrite bswap16_bytes by lia. lia.
Qed.

(** X4. On a region of even length, the checksum computed on a big-endian
    machine is the checksum computed on a little-endian machine with its two
    bytes swapped; so a region verifies on one exactly when it verifies on
    the other. *)
Theorem ipv4_checksum_byte_order (region : list byte) :
  Nat.even (length region) = true ->
  Z.of_nat (length region) <= 131074 ->
  exists c : Z,
    ipv4_checksum LittleEndian region (length region) = Ok c /\
    ipv4_checksum BigEndian region (length region) = Ok (bswap16 c) /\
    (c = 0 <-> bswap16 c = 0).
Proof.
  intros E L.
  rewrite !ipv4_checksum_rfc1071_bounded by exact L.
  destruct (rfc1071_checksum_swapped region E) as [-> R].
  eexists. split; [reflexivity|]. split; [reflexivity|].
  apply bswap16_zero. exact R.
Qed.

Lemma ipv4_checksum_byte_order_witness :
  exists c : Z,
    ipv4_checksum LittleEndian payload8 8 = Ok c /\
    ipv4_checksum BigEndian payload8 8 = Ok (bswap16 c).
Proof.
  destruct (ipv4_checksum_byte_order payload8) as (c & Hl & Hb & _);
    [reflexivity | simpl; lia |].
  exists c. split; assumption.
Defined.

(** * Corruption of one header byte *)

Ltac unfold_word_sums :=
  cbn [app Rfc1071.words16 Rfc1071.sum_words fold_right decode le_decode rev].

(** Replacing one byte of a region moves the sum of its words by the
    difference of the two bytes, times 1 or 256. *)
Lemma sum_words_replace (host : endianness) :
  forall (k : nat) (pre : list byte),
    (length pre <= k)%nat ->
    forall (b b' : byte) (post : list byte),
    exists w : Z,
      (w = 1 \/ w = 256) /\
      Rfc1071.sum_words (Rfc1071.words16 host (pre ++ b' :: post))
      = Rfc1071.sum_words (Rfc1071.words16 host (pre ++ b :: post))
        + w * (byte_val b' - byte_val b).
Proof.
  induction k as [|k IH]; intros pre L b b' post.
  - destruct pre; [|simpl in L; lia].
    destruct post as [|b1 post].
    + exists 1. split; [left; reflexivity|]. unfold_word_sums. lia.
    + destruct host; [exists 1 | exists 256];
        (split; [auto|]);
        unfold_word_sums; lia.
  - destruct pre as [|a0 [|a1 pre]].
    + destruct post as [|b1 post].
      * exists 1. split; [left; reflexivity|]. unfold_word_sums. lia.
      * destruct host; [exists 1 | exists 256];
          (split; [auto|]);
          unfold_word_sums; lia.
    + destruct host; [exists 256 | exists 1];
        (split; [auto|]);
        unfold_word_sums; lia.
    + destruct (IH pre ltac:(simpl in L; lia) b b' post) as (w & Hw & E).
      exists w. split; [exact Hw|].
      cbn [app Rfc1071.words16 Rfc1071.sum_words fold_right].
      fold (Rfc1071.sum_words (Rfc1071.words16 host (pre ++ b' :: post))).
      fold (Rfc1071.sum_words (Rfc1071.words16 host (pre ++ b :: post))).
      lia.
Qed.

(** A header that verifies no longer does once one of its bytes is
    changed. *)
Lemma header_byte_change_detected (host : endianness)
  (pre post : list byte) (b b' : byte) :
  length (pre ++ b :: post) = 20%nat ->
  b' <> b ->
  Rfc1071.checksum host (pre ++ b :: post) = 0 ->
  Rfc1071.checksum host (pre ++ b' :: post) <> 0.
Proof.
  intros L N. rewrite !rfc1071_checksum_value.
  destruct (sum_words_replace host _ pre (le_n _) b b' post) as (w & Hw & E).
  destruct (sum_words_bound host _ (pre ++ b :: post) (le_n _)) as [P _].
  destruct (sum_words_bound host _ (pre ++ b' :: post) (le_n _)) as [P' _].
  set (s := Rfc1071.sum_words (Rfc1071.words16 host (pre ++ b :: post))) in *.
  set (s' := Rfc1071.sum_words (Rfc1071.words16 host (pre ++ b' :: post))) in *.
  pose proof (byte_val_range b). pose proof (byte_val_range b').
  assert (byte_val b' <> byte_val b) as Nv
    by (intros Ev; apply N, byte_val_inj, Ev).
  unfold ones_residue.
  destruct (Z.eqb_spec s 0); [lia|]. destruct (Z.eqb_spec s' 0); [lia|].
  pose proof (Z.div_mod (s - 1) 65535 ltac:(lia)).
  pose proof (Z.mod_pos_bound (s - 1) 65535 ltac:(lia)).
  pose proof (Z.div_mod (s' - 1) 65535 ltac:(lia)).
  pose proof (Z.mod_pos_bound (s' - 1) 65535 ltac:(lia)).
  destruct Hw as [-> | ->]; lia.
Qed.

(** X5. A packet that passes the checksum check and then has any one of its
    20 header bytes replaced by a different byte is dropped at step 1 of
    [ipv4_receive]: no handler sees it. *)
Theorem ipv4_receive_detects_byte_change (host : endianness)
  (nic : nic_device_t) (pre post : list byte) (b b' : byte) (len : Z) :
  ipv4_checksum host (pre ++ b :: post) Hdr.size = Ok 0 ->
  (length pre < 20)%nat ->
  b' <> b ->
  ipv4_receive host nic (pre ++ b' :: post) len = Ok Rx_drop_checksum.
Proof.
  intros Hc Lp N.
  pose proof (ipv4_checksum_ok_length _ _ _ _ Hc) as L. unfold Hdr.size in L.
  rewrite length_app in L. cbn [length] in L.
  set (m := (19 - length pre)%nat).
  assert (forall x, pre ++ x :: post
                    = (pre ++ x :: firstn m post) ++ skipn m post) as Split.
  { intros x. rewrite <- app_assoc. cbn [app]. rewrite firstn_skipn.
    reflexivity. }
  assert (forall x, length (pre ++ x :: firstn m post) = 20%nat) as Len.
  { intros x. rewrite length_app. cbn [length]. rewrite length_firstn.
    unfold m. lia. }
  rewrite (Split b), ipv4_checksum_header in Hc by apply Len.
  injection Hc as Hc.
  unfold ipv4_receive.
  rewrite (Split b'), ipv4_checksum_header by apply Len. cbn [bind].
  pose proof (header_byte_change_detected host pre (firstn m post) b b'
                (Len b) N Hc) as D.
  destruct (Z.eqb_spec (Rfc1071.checksum host (pre ++ b' :: firstn m post)) 0);
    [contradiction | reflexivity].
Qed.

Lemma ipv4_receive_detects_byte_change_witness :
  ipv4_checksum LittleEndian (hdr_icmp ++ payload8) Hdr.size = Ok 0 /\
  ipv4_receive LittleEndian nic_b (hdr_bad ++ payload8) 28
  = Ok Rx_drop_checksum.
Proof.
  split; [reflexivity|].
  apply (ipv4_receive_detects_byte_change LittleEndian nic_b
           (firstn 10 hdr_icmp) (skipn 11 hdr_icmp ++ payload8) x66 x67 28);
    [reflexivity | simpl; lia | discriminate].
Defined.

(** * What the frame depends on *)

(** X6. The frame handed to the driver depends on the first [payload_len]
    bytes of the payload only: neither the former content of the two local
    arrays nor what follows the payload in memory reaches the driver. *)
Theorem ipv4_send_frame_inputs (host : endianness) (stack1 stack2 : nat -> byte)
  (nic : nic_device_t) (dst_ip protocol : Z) (payload1 payload2 : list byte)
  (payload_len : Z) :
  0 <= payload_len <= 2014 ->
  (Z.to_nat payload_len <= length payload1)%nat ->
  (Z.to_nat payload_len <= length payload2)%nat ->
  (6 <= length (mac_address nic))%nat ->
  firstn (Z.to_nat payload_len) payload1
  = firstn (Z.to_nat payload_len) payload2 ->
  exists call1 call2 : tx_call,
    ipv4_send host stack1 nic dst_ip protocol payload1 payload_len = Ok call1 /\
    ipv4_send host stack2 nic dst_ip protocol payload2 payload_len = Ok call2 /\
    tx_frame call1 = tx_frame call2 /\
    tx_length call1 = tx_length call2.
Proof.
  intros R L1 L2 Lm E.
  destruct (ipv4_send_ok host stack1 nic dst_ip protocol payload1 payload_len
              R L1 Lm) as (c1 & H1 & T1 & F1).
  destruct (ipv4_send_ok host stack2 nic dst_ip protocol payload2 payload_len
              R L2 Lm) as (c2 & H2 & T2 & F2).
  exists c1, c2. repeat split; try assumption.
  - rewrite F1, F2, E. reflexivity.
  - rewrite T1, T2. reflexivity.
Qed.

Lemma ipv4_send_frame_inputs_witness :
  exists call1 call2 : tx_call,
    ipv4_send LittleEndian zero_stack nic_a 0x0200000A 1 payload8 4 = Ok call1 /\
    ipv4_send LittleEndian (fun _ => xff) nic_a 0x0200000A 1
      [x01; x02; x03; x04; xff] 4 = Ok call2 /\
    tx_frame call1 = tx_frame call2.
Proof.
  destruct (ipv4_send_frame_inputs LittleEndian zero_stack (fun _ => xff) nic_a
              0x0200000A 1 payload8 [x01; x02; x03; x04; xff] 4)
    as (c1 & c2 & H1 & H2 & F & _);
    [lia | simpl; lia | simpl; lia | simpl; lia | reflexivity |].
  exists c1, c2. repeat split; assumption.
Defined.

(** * When a call of [ipv4_send] is defined *)

Lemma ipv4_send_short_payload (host : endianness) (stack : nat -> byte)
  (nic : nic_device_t) (dst_ip protocol : Z) (payload : list byte)
  (payload_len : Z) :
  (length payload < Z.to_nat payload_len)%nat ->
  ipv4_send host stack nic dst_ip protocol payload payload_len
  = Fault Read_out_of_bounds.
Proof.
  intros L. unfold ipv4_send.
  assert (buffer_size = 2048%nat) as Bs by reflexivity.
  rewrite send_header_image by (rewrite alloca_length; lia). cbn [bind].
  rewrite memcpy_short_source by exact L. reflexivity.
Qed.

Lemma ipv4_send_short_mac (host : endianness) (stack : nat -> byte)
  (nic : nic_device_t) (dst_ip protocol : Z) (payload : list byte)
  (payload_len : Z) :
  (Z.to_nat payload_len <= length payload)%nat ->
  (length (mac_address nic) < 6)%nat ->
  exists f : fault,
    ipv4_send host stack nic dst_ip protocol payload payload_len = Fault f.
Proof.
  intros Lp Lm. unfold ipv4_send.
  assert (buffer_size = 2048%nat) as Bs by reflexivity.
  rewrite send_header_image by (rewrite alloca_length; lia). cbn [bind].
  set (hdr := header_image host nic dst_ip protocol payload_len _).
  assert (length hdr = 20%nat) as Lh by apply header_image_length.
  set (n := Z.to_nat payload_len) in *.
  unfold Hdr.size at 1.
  destruct (le_lt_dec n 2028) as [S|L].
  - rewrite memcpy_at by list_length. cbn [bind].
    match goal with
    | |- context [memcpy ?e 0 broadcast_mac 6] => set (E0 := e)
    end.
    assert (length E0 = 2048%nat) as Le by apply alloca_length.
    change E0 with ([] ++ E0) at 1.
    rewrite memcpy_at by list_length. cbn [bind].
    rewrite memcpy_short_source by exact Lm. cbn [bind].
    eexists. reflexivity.
  - rewrite memcpy_overflow by list_length. eexists. reflexivity.
Qed.

(** X7. A call of [ipv4_send] runs to the transmission exactly when the
    payload length is at most 2014, that many payload bytes are readable and
    the link address of the device has its 6 bytes; every other call leaves
    a buffer. *)
Theorem ipv4_send_defined (host : endianness) (stack : nat -> byte)
  (nic : nic_device_t) (dst_ip protocol : Z) (payload : list byte)
  (payload_len : Z) :
  0 <= payload_len <= 65535 ->
  (exists call : tx_call,
     ipv4_send host stack nic dst_ip protocol payload payload_len = Ok call) <->
  payload_len <= 2014 /\
  (Z.to_nat payload_len <= length payload)%nat /\
  (6 <= length (mac_address nic))%nat.
Proof.
  intros R. split.
  - intros (call & E).
    destruct (le_lt_dec (Z.to_nat payload_len) (length payload)) as [Lp|Lp].
    2:{ rewrite ipv4_send_short_payload in E by exact Lp. discriminate E. }
    destruct (le_lt_dec 6 (length (mac_address nic))) as [Lm|Lm].
    2:{ destruct (ipv4_send_short_mac host stack nic dst_ip protocol payload
                    payload_len Lp Lm) as (f & F).
        rewrite F in E. discriminate E. }
    destruct (Z_le_gt_dec payload_len 2014) as [S|G]; [auto|].
    rewrite ipv4_send_overflow in E by (try assumption; lia). discriminate E.
  - intros (S & Lp & Lm).
    destruct (ipv4_send_ok host stack nic dst_ip protocol payload payload_len)
      as (call & E & _); try assumption; try lia.
    exists call. exact E.
Qed.

Lemma ipv4_send_defined_witness :
  ~ exists call : tx_call,
      ipv4_send BigEndian zero_stack nic_a 0x0200000A 17 payload2015 2015
      = Ok call.
Proof.
  intros H.
  apply (ipv4_send_defined BigEndian zero_stack nic_a 0x0200000A 17
           payload2015 2015) in H; [lia | lia].
Defined.

(** * The frame on the wire and the byte order *)

Lemma byte_of_unique (z : Z) (b : byte) :
  z mod 256 = byte_val b -> byte_of z = b.
Proof.
  intros E. rewrite <- (byte_of_mod z), E. apply byte_of_val.
Qed.

Lemma le_encode_decode :
  forall bs : list byte, le_encode (length bs) (le_decode bs) = bs.
Proof.
  induction bs as [|b bs IH]; [reflexivity|].
  cbn [length le_encode le_decode].
  pose proof (byte_val_range b) as R.
  assert ((byte_val b + 256 * le_decode bs) mod 256 = byte_val b) as M
    by (symmetry; apply (Z.mod_unique_pos _ _ (le_decode bs)); lia).
  assert ((byte_val b + 256 * le_decode bs) / 256 = le_decode bs) as D
    by (symmetry; apply (Z.div_unique_pos _ 256 _ (byte_val b)); lia).
  rewrite D, IH. f_equal. apply byte_of_unique. exact M.
Qed.

(** An integer read from memory and written back in the same byte order
    leaves the bytes as they were. *)
Lemma encode_decode (host : endianness) (bs : list byte) :
  encode host (length bs) (decode host bs) = bs.
Proof.
  destruct host; unfold encode, decode.
  - apply le_encode_decode.
  - rewrite <- (length_rev bs), le_encode_decode. apply rev_involutive.
Qed.

Lemma encode_swapped_16 (c : Z) :
  0 <= c <= 65535 ->
  encode BigEndian 2 (bswap16 c) = encode LittleEndian 2 c.
Proof.
  intros R.
  pose proof (Z.div_mod c 256 ltac:(lia)) as D.
  pose proof (Z.mod_pos_bound c 256 ltac:(lia)) as M.
  assert (0 <= c / 256 < 256) as Q
    by (split; [apply Z.div_pos | apply Z.div_lt_upper_bound]; lia).
  rewrite D at 1. rewrite bswap16_bytes by lia.
  set (hi := c / 256) in *. set (lo := c mod 256) in *.
  unfold_codec. f_equal; [|f_equal]; apply byte_of_eq.
  - assert ((256 * lo + hi) / 256 = lo) as ->
      by (symmetry; apply (Z.div_unique_pos _ 256 _ hi); lia).
    unfold lo. rewrite Z.mod_mod by lia. reflexivity.
  - assert ((256 * lo + hi) mod 256 = hi) as ->
      by (symmetry; apply (Z.mod_unique_pos _ _ lo); lia).
    rewrite (Z.mod_small hi) by lia. reflexivity.
Qed.

(** The header image without the byte order of the machine, except for the
    checksum and the addresses. *)
Lemma header_image_wire (host : endianness) (nic : nic_device_t)
  (dst_ip protocol payload_len csum : Z) :
  header_image host nic dst_ip protocol payload_len csum =
  [x45; x00] ++ encode BigEndian 2 (20 + payload_len)
  ++ [x00; x00; x00; x00; x40; byte_of protocol]
  ++ encode host 2 csum
  ++ encode host 4 (ip_address nic)
  ++ encode host 4 dst_ip.
Proof.
  unfold header_image. rewrite !encode_htons. destruct host; reflexivity.
Qed.

(** X8. The bytes handed to the driver do not depend on the byte order of
    the machine: with the same address bytes in memory for the device and
    for the destination, a little-endian and a big-endian machine send the
    same frame, and the addresses are in the frame as they are in memory. *)
Theorem ipv4_send_wire_format (stack1 stack2 : nat -> byte)
  (addr dst mac payload : list byte) (protocol payload_len : Z) :
  length addr = 4%nat ->
  length dst = 4%nat ->
  (6 <= length mac)%nat ->
  0 <= payload_len <= 2014 ->
  (Z.to_nat payload_len <= length payload)%nat ->
  exists call1 call2 : tx_call,
    ipv4_send LittleEndian stack1 (device_at LittleEndian addr mac)
      (decode LittleEndian dst) protocol payload payload_len = Ok call1 /\
    ipv4_send BigEndian stack2 (device_at BigEndian addr mac)
      (decode BigEndian dst) protocol payload payload_len = Ok call2 /\
    tx_frame call1 = tx_frame call2 /\
    read_bytes (tx_frame call1) 26 4 = Ok addr /\
    read_bytes (tx_frame call1) 30 4 = Ok dst.
Proof.
  intros La Ld Lm R Lp.
  destruct (ipv4_send_ok LittleEndian stack1 (device_at LittleEndian addr mac)
              (decode LittleEndian dst) protocol payload payload_len R Lp Lm)
    as (c1 & H1 & _ & F1).
  destruct (ipv4_send_ok BigEndian stack2 (device_at BigEndian addr mac)
              (decode BigEndian dst) protocol payload payload_len R Lp Lm)
    as (c2 & H2 & _ & F2).
  assert (forall host c,
            header_image host (device_at host addr mac) (decode host dst)
              protocol payload_len c
            = [x45; x00] ++ encode BigEndian 2 (20 + payload_len)
              ++ [x00; x00; x00; x00; x40; byte_of protocol]
              ++ encode host 2 c ++ addr ++ dst) as W.
  { intros host c. rewrite header_image_wire.
    cbn [device_at ip_address].
    pose proof (encode_decode host addr) as Ea. rewrite La in Ea.
    pose proof (encode_decode host dst) as Ed. rewrite Ld in Ed.
    rewrite Ea, Ed. reflexivity. }
  rewrite !W in F1, F2.
  set (zeroed := [x45; x00] ++ encode BigEndian 2 (20 + payload_len)
                 ++ [x00; x00; x00; x00; x40; byte_of protocol]
                 ++ [x00; x00] ++ addr ++ dst) in *.
  change (encode LittleEndian 2 0) with [x00; x00] in F1.
  change (encode BigEndian 2 0) with [x00; x00] in F2.
  fold zeroed in F1, F2.
  assert (Nat.even (length zeroed) = true) as Ev.
  { unfold zeroed. rewrite !length_app, encode_length, La, Ld. reflexivity. }
  destruct (rfc1071_checksum_swapped zeroed Ev) as [Sw Rc].
  rewrite Sw, encode_swapped_16 in F2 by exact Rc.
  exists c1, c2.
  split; [exact H1|]. split; [exact H2|].
  cbn [device_at mac_address] in F1, F2.
  split; [rewrite F1, F2; reflexivity|].
  rewrite F1.
  destruct addr as [|a0 [|a1 [|a2 [|a3 [|? ?]]]]]; try discriminate La.
  destruct dst as [|d0 [|d1 [|d2 [|d3 [|? ?]]]]]; try discriminate Ld.
  destruct mac as [|m0 [|m1 [|m2 [|m3 [|m4 [|m5 mac]]]]]];
    try (simpl in Lm; lia).
  split; reflexivity.
Qed.

Lemma ipv4_send_wire_format_witness :
  exists call1 call2 : tx_call,
    ipv4_send LittleEndian zero_stack
      (device_at LittleEndian [x0a; x00; x00; x01] (mac_address nic_a))
      (decode LittleEndian [x0a; x00; x00; x02]) 1 payload8 8 = Ok call1 /\
    ipv4_send BigEndian zero_stack
      (device_at BigEndian [x0a; x00; x00; x01] (mac_address nic_a))
      (decode BigEndian [x0a; x00; x00; x02]) 1 payload8 8 = Ok call2 /\
    tx_frame call1 = tx_frame call2.
Proof.
  destruct (ipv4_send_wire_format zero_stack zero_stack [x0a; x00; x00; x01]
              [x0a; x00; x00; x02] (mac_address nic_a) payload8 1 8)
    as (c1 & c2 & H1 & H2 & F & _);
    [reflexivity | reflexivity | simpl; lia | lia | simpl; lia |].
  exists c1, c2. repeat split; assumption.
Defined.

(** * Further properties of the receive path *)

(** With 20 readable bytes [ipv4_receive] returns. *)
Lemma ipv4_receive_returns (host : endianness) (nic : nic_device_t)
  (packet : list byte) (len : Z) :
  (20 <= length packet)%nat ->
  exists e : rx_event, ipv4_receive host nic packet len = Ok e.
Proof.
  intros L.
  destruct (header_loads host packet L)
    as (csum & dst & vi & tl & proto & src & Hc & Hd & Hv & Ht & Hp & Hs).
  rewrite (ipv4_receive_loaded host nic packet len csum dst vi tl proto src)
    by assumption.
  destruct (negb (csum =? 0)); [eexists; reflexivity|].
  destruct (negb (dst =? ip_address nic) && negb (dst =? 0xFFFFFFFF));
    [eexists; reflexivity|].
  cbv zeta. destruct (proto =? 1); eexists; reflexivity.
Qed.

(** The bytes printed by the diagnostic branch, as the code reads them. *)
Lemma ipv4_receive_print_hex (host : endianness) (nic : nic_device_t)
  (packet : list byte) (len src proto : Z) (p : payload_ref)
  (hex : access (list byte)) :
  ipv4_receive host nic packet len = Ok (Rx_print src proto p hex) ->
  0 <= payload_length p /\
  hex = if 0 <? payload_length p
        then read_bytes packet (payload_offset p)
               (Z.to_nat (Z.min 16 (payload_length p)))
        else Ok [].
Proof.
  intros E.
  assert (20 <= length packet)%nat as L.
  { destruct (le_lt_dec 20 (length packet)) as [L|L]; [exact L|].
    rewrite ipv4_receive_short in E by exact L. discriminate E. }
  destruct (header_loads host packet L)
    as (csum & dst & vi & tl & proto' & src' & Hc & Hd & Hv & Ht & Hp & Hs).
  rewrite (ipv4_receive_loaded host nic packet len csum dst vi tl proto' src')
    in E by assumption.
  destruct (negb (csum =? 0)); [discriminate E|].
  destruct (negb (dst =? ip_address nic) && negb (dst =? 0xFFFFFFFF));
    [discriminate E|].
  cbv zeta in E.
  destruct (proto' =? 1); [discriminate E|].
  pose proof (u16_range (tl - u16 (Z.land vi 15 * 4))) as Rl.
  set (plen := u16 (tl - u16 (Z.land vi 15 * 4))) in *.
  assert (Z.to_nat (if 16 <? plen then 16 else plen)
          = Z.to_nat (Z.min 16 plen)) as Em
    by (destruct (Z.ltb_spec 16 plen); f_equal; lia).
  rewrite Em in E.
  assert (Ok (Rx_print src proto p hex)
          = Ok (Rx_print src' proto'
                  {| payload_offset := Z.to_nat (u16 (Z.land vi 15 * 4));
                     payload_length := plen |}
                  (if 0 <? plen
                   then read_bytes packet (Z.to_nat (u16 (Z.land vi 15 * 4)))
                          (Z.to_nat (Z.min 16 plen))
                   else Ok []))) as E' by (rewrite <- E; reflexivity).
  assert (p = {| payload_offset := Z.to_nat (u16 (Z.land vi 15 * 4));
                 payload_length := plen |}) as -> by congruence.
  cbn [payload_offset payload_length].
  split; [lia | congruence].
Qed.

(** X9. [ipv4_receive] makes no read outside the packet exactly when the
    packet has at least 20 bytes and, if the call takes the diagnostic
    branch with a payload length above zero, the min(16, payload length)
    bytes it prints lie inside the packet; [len] plays no part. A packet
    of fewer than 20 bytes is always read past its end. *)
Theorem ipv4_receive_reads_in_bounds (host : endianness) (nic : nic_device_t)
  (packet : list byte) (len : Z) :
  reads_in_bounds (ipv4_receive host nic packet len) <->
  (20 <= length packet)%nat /\
  (forall (src proto : Z) (p : payload_ref) (hex : access (list byte)),
     ipv4_receive host nic packet len = Ok (Rx_print src proto p hex) ->
     0 < payload_length p ->
     (payload_offset p + Z.to_nat (Z.min 16 (payload_length p))
      <= length packet)%nat).
Proof.
  split.
  - intros B. split.
    + destruct (le_lt_dec 20 (length packet)) as [L|L]; [exact L|].
      rewrite ipv4_receive_short in B by exact L. destruct B.
    + intros src proto p hex E P.
      destruct (ipv4_receive_print_hex _ _ _ _ _ _ _ _ E) as [_ Hh].
      rewrite E in B. cbn [reads_in_bounds] in B.
      destruct (Z.ltb_spec 0 (payload_length p)) as [_|N]; [|lia].
      subst hex. unfold read_bytes in B.
      destruct (Nat.leb_spec
                  (payload_offset p + Z.to_nat (Z.min 16 (payload_length p)))
                  (length packet)) as [I|O]; [exact I | destruct B].
  - intros [L H].
    destruct (ipv4_receive_returns host nic packet len L) as (e & E).
    rewrite E. destruct e as [| | src p | src proto p hex]; cbn; try exact I.
    destruct (ipv4_receive_print_hex _ _ _ _ _ _ _ _ E) as [_ Hh].
    specialize (H src proto p hex E).
    destruct (Z.ltb_spec 0 (payload_length p)) as [P|N].
    + specialize (H P). subst hex. unfold read_bytes.
      destruct (Nat.leb_spec
                  (payload_offset p + Z.to_nat (Z.min 16 (payload_length p)))
                  (length packet)) as [_|O]; [exact I | lia].
    + subst hex. exact I.
Qed.

(** X10. A handler is reached only by a packet whose header checksum is
    zero and whose destination is the device or the all-ones address; the
    ICMP handler only when the protocol field is 1, the diagnostic branch
    only when it is not; and both get the source address of the header. *)
Theorem ipv4_receive_handler (host : endianness) (nic : nic_device_t)
  (packet : list byte) (len : Z) (e : rx_event) (p : payload_ref) :
  ipv4_receive host nic packet len = Ok e ->
  dispatched e = Some p ->
  ipv4_checksum host packet Hdr.size = Ok 0 /\
  (exists dst : Z,
     load32 host packet Hdr.destination_address = Ok dst /\
     (dst = ip_address nic \/ dst = 0xFFFFFFFF)) /\
  exists src proto : Z,
    load32 host packet Hdr.source_address = Ok src /\
    load8 packet Hdr.protocol = Ok proto /\
    ((proto = 1 /\ e = Rx_icmp src p) \/
     (proto <> 1 /\ exists hex, e = Rx_print src proto p hex)).
Proof.
  intros E D.
  assert (20 <= length packet)%nat as L.
  { destruct (le_lt_dec 20 (length packet)) as [L|L]; [exact L|].
    rewrite ipv4_receive_short in E by exact L. discriminate E. }
  destruct (header_loads host packet L)
    as (csum & dst & vi & tl & proto & src & Hc & Hd & Hv & Ht & Hp & Hs).
  rewrite (ipv4_receive_loaded host nic packet len csum dst vi tl proto src)
    in E by assumption.
  destruct (Z.eqb_spec csum 0) as [->|Nc]; cbn [negb] in E;
    [|injection E as <-; discriminate D].
  destruct (negb (dst =? ip_address nic) && negb (dst =? 0xFFFFFFFF)) eqn:F;
    [injection E as <-; discriminate D|].
  apply not_filtered in F. cbv zeta in E.
  split; [exact Hc|]. split; [exists dst; split; assumption|].
  exists src, proto. split; [exact Hs|]. split; [exact Hp|].
  destruct (Z.eqb_spec proto 1) as [->|Np]; injection E as <-;
    cbn [dispatched] in D; injection D as <-.
  - left. split; reflexivity.
  - right. split; [exact Np|]. eexists. reflexivity.
Qed.

Lemma ipv4_receive_handler_witness :
  ipv4_checksum LittleEndian (hdr_icmp ++ payload8) Hdr.size = Ok 0 /\
  load8 (hdr_icmp ++ payload8) Hdr.protocol = Ok 1.
Proof.
  destruct (ipv4_receive_handler LittleEndian nic_b (hdr_icmp ++ payload8) 28
              (Rx_icmp (ip_address nic_a)
                 {| payload_offset := 20; payload_length := 8 |})
              {| payload_offset := 20; payload_length := 8 |})
    as (Hc & _ & src & proto & _ & Hp & _); [reflexivity | reflexivity |].
  split; [exact Hc | reflexivity].
Defined.

(** X11. The payload handed over starts at 4 times the low four bits of the
    first header byte, hence at most 60 bytes into the packet, and its
    length is the total length field minus that offset, reduced modulo
    2^16: a total length below the header length gives a length of more
    than 65475. *)
Theorem ipv4_receive_payload_span (host : endianness) (nic : nic_device_t)
  (packet : list byte) (len : Z) (e : rx_event) (p : payload_ref) :
  ipv4_receive host nic packet len = Ok e ->
  dispatched e = Some p ->
  exists vi tl : Z,
    load8 packet Hdr.version_ihl = Ok vi /\
    load16 BigEndian packet Hdr.total_length = Ok tl /\
    Z.of_nat (payload_offset p) = 4 * (vi mod 16) /\
    payload_length p = (tl - 4 * (vi mod 16)) mod 65536 /\
    Z.of_nat (payload_offset p) <= 60 /\
    (tl < 4 * (vi mod 16) -> 65475 < payload_length p).
Proof.
  intros E D.
  assert (20 <= length packet)%nat as L.
  { destruct (le_lt_dec 20 (length packet)) as [L|L]; [exact L|].
    rewrite ipv4_receive_short in E by exact L. discriminate E. }
  destruct (header_loads host packet L)
    as (csum & dst & vi & tl & proto & src & Hc & Hd & Hv & Ht & Hp & Hs).
  rewrite (ipv4_receive_loaded host nic packet len csum dst vi tl proto src)
    in E by assumption.
  destruct (negb (csum =? 0)); [injection E as <-; discriminate D|].
  destruct (negb (dst =? ip_address nic) && negb (dst =? 0xFFFFFFFF));
    [injection E as <-; discriminate D|].
  cbv zeta in E.
  assert (Z.land vi 0x0F = vi mod 16) as Ev.
  { change (Z.land vi 0x0F) with (Z.land vi (Z.ones 4)).
    rewrite Z.land_ones by lia. reflexivity. }
  pose proof (Z.mod_pos_bound vi 16 ltac:(lia)) as Rv.
  pose proof (load16_range _ _ _ _ Ht) as Rt.
  rewrite Ev in E.
  assert (u16 (vi mod 16 * 4) = 4 * (vi mod 16)) as Eo
    by (unfold u16; rewrite Z.mod_small; lia).
  rewrite Eo in E.
  assert (p = {| payload_offset := Z.to_nat (4 * (vi mod 16));
                 payload_length := u16 (tl - 4 * (vi mod 16)) |}) as ->.
  { destruct (proto =? 1); injection E as <-; cbn [dispatched] in D;
      injection D as <-; reflexivity. }
  exists vi, tl. cbn [payload_offset payload_length].
  split; [exact Hv|]. split; [exact Ht|].
  split; [lia|]. split; [reflexivity|]. split; [lia|].
  intros W. unfold u16. change (2 ^ 16) with 65536.
  assert ((tl - 4 * (vi mod 16)) mod 65536 = tl - 4 * (vi mod 16) + 65536) as ->
    by (symmetry; apply (Z.mod_unique_pos _ _ (-1)); lia).
  lia.
Qed.

Lemma ipv4_receive_payload_span_witness :
  exists vi tl : Z,
    load8 hdr_len0 Hdr.version_ihl = Ok vi /\
    load16 BigEndian hdr_len0 Hdr.total_length = Ok tl /\
    65516 = (tl - 4 * (vi mod 16)) mod 65536.
Proof.
  destruct (ipv4_receive_payload_span LittleEndian nic_b hdr_len0 20
              (Rx_print (ip_address nic_a) 17
                 {| payload_offset := 20; payload_length := 65516 |}
                 (Fault Read_out_of_bounds))
              {| payload_offset := 20; payload_length := 65516 |})
    as (vi & tl & Hv & Ht & _ & Hl & _); [reflexivity | reflexivity |].
  exists vi, tl. repeat split; assumption.
Defined.

(** X12. The diagnostic branch prints at most 16 payload bytes: the first
    min(16, payload length) bytes found at the payload offset; it reads
    outside the packet exactly when these do not all lie inside it. *)
Theorem ipv4_receive_dump (host : endianness) (nic : nic_device_t)
  (packet : list byte) (len src proto : Z) (p : payload_ref)
  (hex : access (list byte)) :
  ipv4_receive host nic packet len = Ok (Rx_print src proto p hex) ->
  let shown := Z.to_nat (Z.min 16 (payload_length p)) in
  (forall bs : list byte,
     hex = Ok bs ->
     length bs = shown /\
     bs = firstn shown (skipn (payload_offset p) packet)) /\
  (forall f : fault,
     hex = Fault f ->
     f = Read_out_of_bounds /\
     (length packet < payload_offset p + shown)%nat) /\
  ((payload_offset p + shown <= length packet)%nat ->
   exists bs : list byte, hex = Ok bs).
Proof.
  intros E shown.
  assert (20 <= length packet)%nat as L.
  { destruct (le_lt_dec 20 (length packet)) as [L|L]; [exact L|].
    rewrite ipv4_receive_short in E by exact L. discriminate E. }
  destruct (header_loads host packet L)
    as (csum & dst & vi & tl & proto' & src' & Hc & Hd & Hv & Ht & Hp & Hs).
  rewrite (ipv4_receive_loaded host nic packet len csum dst vi tl proto' src')
    in E by assumption.
  destruct (negb (csum =? 0)); [discriminate E|].
  destruct (negb (dst =? ip_address nic) && negb (dst =? 0xFFFFFFFF));
    [discriminate E|].
  cbv zeta in E.
  destruct (proto' =? 1); [discriminate E|].
  injection E as <- <- <- <-.
  cbn [payload_offset payload_length] in shown.
  set (off := Z.to_nat (u16 (Z.land vi 15 * 4))) in *.
  pose proof (u16_range (tl - u16 (Z.land vi 15 * 4))) as Rl.
  set (plen := u16 (tl - u16 (Z.land vi 15 * 4))) in *.
  cbn [payload_offset payload_length].
  assert (Z.to_nat (if 16 <? plen then 16 else plen) = shown) as ->.
  { unfold shown. destruct (Z.ltb_spec 16 plen); f_equal; lia. }
  destruct (Z.ltb_spec 0 plen) as [P|Z0].
  - unfold read_bytes.
    destruct (Nat.leb_spec (off + shown) (length packet)) as [I|O].
    + split; [|split].
      * intros bs [= <-]. split; [|reflexivity].
        rewrite length_firstn, length_skipn. lia.
      * intros f [=].
      * intros _. eexists. reflexivity.
    + split; [|split].
      * intros bs [=].
      * intros f [= <-]. split; [reflexivity | exact O].
      * intros I. lia.
  - assert (shown = 0%nat) as -> by (unfold shown; lia).
    split; [|split].
    + intros bs [= <-]. split; reflexivity.
    + intros f [=].
    + intros _. eexists. reflexivity.
Qed.

Lemma ipv4_receive_dump_witness :
  ipv4_receive LittleEndian nic_b hdr_len0 20
  = Ok (Rx_print (ip_address nic_a) 17
          {| payload_offset := 20; payload_length := 65516 |}
          (Fault Read_out_of_bounds)) /\
  (length hdr_len0 < 20 + 16)%nat.
Proof.
  split; [reflexivity|].
  destruct (ipv4_receive_dump LittleEndian nic_b hdr_len0 20 (ip_address nic_a)
              17 {| payload_offset := 20; payload_length := 65516 |}
              (Fault Read_out_of_bounds)) as (_ & Hf & _); [reflexivity|].
  destruct (Hf Read_out_of_bounds eq_refl) as [_ H]. exact H.
Defined.

(** The header fields of a packet are those of its first 20 bytes. *)
Lemma header_loads_app (host : endianness) (hdr payload : list byte) :
  length hdr = 20%nat ->
  exists csum dst vi tl proto src : Z,
    ipv4_checksum host (hdr ++ payload) Hdr.size = Ok csum /\
    load32 host (hdr ++ payload) Hdr.destination_address = Ok dst /\
    load8 (hdr ++ payload) Hdr.version_ihl = Ok vi /\
    load16 BigEndian (hdr ++ payload) Hdr.total_length = Ok tl /\
    load8 (hdr ++ payload) Hdr.protocol = Ok proto /\
    load32 host (hdr ++ payload) Hdr.source_address = Ok src /\
    ipv4_checksum host hdr Hdr.size = Ok csum /\
    load32 host hdr Hdr.destination_address = Ok dst /\
    load8 hdr Hdr.version_ihl = Ok vi /\
    load16 BigEndian hdr Hdr.total_length = Ok tl /\
    load8 hdr Hdr.protocol = Ok proto /\
    load32 host hdr Hdr.source_address = Ok src.
Proof.
  intros L.
  destruct (header_loads host hdr ltac:(lia))
    as (csum & dst & vi & tl & proto & src & Hc & Hd & Hv & Ht & Hp & Hs).
  exists csum, dst, vi, tl, proto, src.
  assert (ipv4_checksum host (hdr ++ payload) Hdr.size = Ok csum) as Hc'.
  { rewrite ipv4_checksum_header by exact L.
    rewrite <- (app_nil_r hdr), ipv4_checksum_header in Hc by exact L.
    exact Hc. }
  unfold load8, load16, load32, Hdr.destination_address, Hdr.version_ihl,
    Hdr.total_length, Hdr.protocol, Hdr.source_address in *.
  rewrite !read_bytes_app_l by lia.
  repeat split; assumption.
Qed.

(** X13. The first 20 bytes of a packet decide what [ipv4_receive] does
    with it: two packets with the same header are both dropped at the same
    step, or both handed to the ICMP handler with the same arguments, or
    both handed to the diagnostic branch with the same source, protocol and
    payload span; only the payload bytes printed can differ, and [len]
    plays no part. *)
Theorem ipv4_receive_header_decides (host : endianness) (nic : nic_device_t)
  (hdr payload1 payload2 : list byte) (len1 len2 : Z) :
  length hdr = 20%nat ->
  exists e1 e2 : rx_event,
    ipv4_receive host nic (hdr ++ payload1) len1 = Ok e1 /\
    ipv4_receive host nic (hdr ++ payload2) len2 = Ok e2 /\
    (e1 = e2 \/
     exists (src proto : Z) (p : payload_ref) (hex1 hex2 : access (list byte)),
       e1 = Rx_print src proto p hex1 /\ e2 = Rx_print src proto p hex2).
Proof.
  intros L.
  destruct (header_loads_app host hdr payload1 L)
    as (csum & dst & vi & tl & proto & src
        & Hc & Hd & Hv & Ht & Hp & Hs & Hc0 & Hd0 & Hv0 & Ht0 & Hp0 & Hs0).
  destruct (header_loads_app host hdr payload2 L)
    as (csum' & dst' & vi' & tl' & proto' & src'
        & Hc' & Hd' & Hv' & Ht' & Hp' & Hs' & Hc1 & Hd1 & Hv1 & Ht1 & Hp1 & Hs1).
  rewrite Hc0 in Hc1. injection Hc1 as <-.
  rewrite Hd0 in Hd1. injection Hd1 as <-.
  rewrite Hv0 in Hv1. injection Hv1 as <-.
  rewrite Ht0 in Ht1. injection Ht1 as <-.
  rewrite Hp0 in Hp1. injection Hp1 as <-.
  rewrite Hs0 in Hs1. injection Hs1 as <-.
  rewrite (ipv4_receive_loaded host nic (hdr ++ payload1) len1
             csum dst vi tl proto src) by assumption.
  rewrite (ipv4_receive_loaded host nic (hdr ++ payload2) len2
             csum dst vi tl proto src) by assumption.
  destruct (negb (csum =? 0)).
  { do 2 eexists. split; [reflexivity|]. split; [reflexivity|]. left.
    reflexivity. }
  destruct (negb (dst =? ip_address nic) && negb (dst =? 0xFFFFFFFF)).
  { do 2 eexists. split; [reflexivity|]. split; [reflexivity|]. left.
    reflexivity. }
  cbv zeta. destruct (proto =? 1).
  - do 2 eexists. split; [reflexivity|]. split; [reflexivity|]. left.
    reflexivity.
  - do 2 eexists. split; [reflexivity|]. split; [reflexivity|]. right.
    do 5 eexists. split; reflexivity.
Qed.

Lemma ipv4_receive_header_decides_witness :
  exists e : rx_event,
    ipv4_receive LittleEndian nic_b (hdr_icmp ++ payload8) 28 = Ok e /\
    ipv4_receive LittleEndian nic_b (hdr_icmp ++ [xff; xff]) 0 = Ok e.
Proof.
  destruct (ipv4_receive_header_decides LittleEndian nic_b hdr_icmp payload8
              [xff; xff] 28 0) as (e1 & e2 & H1 & H2 & [E | E]);
    [reflexivity | |].
  - exists e1. split; [exact H1 | rewrite E; exact H2].
  - exfalso. destruct E as (src & proto & p & h1 & h2 & E1 & _).
    rewrite E1 in H1. discriminate H1.
Defined.

(** * Receiving and the byte order *)

Lemma decode_inj (host : endianness) (a b : list byte) :
  length a = length b -> decode host a = decode host b -> a = b.
Proof.
  intros L E.
  rewrite <- (encode_decode host a), <- (encode_decode host b), L, E.
  reflexivity.
Qed.

(** Comparing two 32-bit fields is comparing their four bytes, in either
    byte order. *)
Lemma decode_eqb (host : endianness) (a b : list byte) :
  length a = length b ->
  (decode host a =? decode host b) = (decode LittleEndian a =? decode LittleEndian b).
Proof.
  intros L.
  destruct (Z.eqb_spec (decode host a) (decode host b)) as [E|N];
    destruct (Z.eqb_spec (decode LittleEndian a) (decode LittleEndian b))
      as [E'|N']; try reflexivity; exfalso.
  - apply N'. f_equal. apply (decode_inj host); assumption.
  - apply N. f_equal. apply (decode_inj LittleEndian); assumption.
Qed.

(** X14. What [ipv4_receive] does with a packet does not depend on the byte
    order of the machine: with the same address bytes in memory for the
    device, a little-endian and a big-endian machine drop the packet at the
    same step or hand the same payload span to the same handler, and the
    source addresses they pass on are the same four bytes. *)
Theorem ipv4_receive_byte_order (addr mac1 mac2 packet : list byte)
  (len1 len2 : Z) :
  length addr = 4%nat ->
  (20 <= length packet)%nat ->
  exists e1 e2 : rx_event,
    ipv4_receive LittleEndian (device_at LittleEndian addr mac1) packet len1
    = Ok e1 /\
    ipv4_receive BigEndian (device_at BigEndian addr mac2) packet len2
    = Ok e2 /\
    ((e1 = Rx_drop_checksum /\ e2 = Rx_drop_checksum) \/
     (e1 = Rx_drop_address /\ e2 = Rx_drop_address) \/
     (exists (src : list byte) (p : payload_ref),
        length src = 4%nat /\
        e1 = Rx_icmp (decode LittleEndian src) p /\
        e2 = Rx_icmp (decode BigEndian src) p) \/
     (exists (src : list byte) (proto : Z) (p : payload_ref)
             (hex : access (list byte)),
        length src = 4%nat /\
        e1 = Rx_print (decode LittleEndian src) proto p hex /\
        e2 = Rx_print (decode BigEndian src) proto p hex)).
Proof.
  intros La L.
  destruct (header_loads LittleEndian packet L)
    as (c1 & d1 & vi & tl & proto & s1 & Hc1 & Hd1 & Hv & Ht & Hp & Hs1).
  destruct (header_loads BigEndian packet L)
    as (c2 & d2 & vi' & tl' & proto' & s2 & Hc2 & Hd2 & Hv' & Ht' & Hp' & Hs2).
  rewrite Hv in Hv'. injection Hv' as <-.
  rewrite Ht in Ht'. injection Ht' as <-.
  rewrite Hp in Hp'. injection Hp' as <-.
  rewrite (ipv4_receive_loaded LittleEndian _ packet len1 c1 d1 vi tl proto s1)
    by assumption.
  rewrite (ipv4_receive_loaded BigEndian _ packet len2 c2 d2 vi tl proto s2)
    by assumption.
  (* the checksums *)
  assert (length (firstn 20 packet) = 20%nat) as Lh
    by (rewrite length_firstn; lia).
  pose proof (ipv4_checksum_header LittleEndian (firstn 20 packet)
                (skipn 20 packet) Lh) as K1.
  pose proof (ipv4_checksum_header BigEndian (firstn 20 packet)
                (skipn 20 packet) Lh) as K2.
  rewrite firstn_skipn in K1, K2.
  destruct (rfc1071_checksum_swapped (firstn 20 packet))
    as [Sw Rc]; [rewrite Lh; reflexivity|].
  rewrite Sw in K2.
  pose proof (bswap16_zero _ Rc) as Zc.
  set (c := Rfc1071.checksum LittleEndian (firstn 20 packet)) in *.
  clearbody c.
  assert (c1 = c) as -> by congruence.
  assert (c2 = bswap16 c) as -> by congruence.
  destruct (Z.eqb_spec c 0) as [C0|C1];
    destruct (Z.eqb_spec (bswap16 c) 0) as [B0|B1];
    try (exfalso; tauto); cbn [negb].
  2:{ do 2 eexists. split; [reflexivity|]. split; [reflexivity|].
      left. split; reflexivity. }
  (* the addresses *)
  unfold load32, Hdr.destination_address, Hdr.source_address in *.
  destruct (read_bytes_ok packet 16 4 ltac:(lia)) as (db & Rd & Ldb).
  destruct (read_bytes_ok packet 12 4 ltac:(lia)) as (sb & Rs & Lsb).
  rewrite Rd in Hd1, Hd2. rewrite Rs in Hs1, Hs2.
  cbn [bind] in Hd1, Hd2, Hs1, Hs2.
  assert (d1 = decode LittleEndian db) as -> by congruence.
  assert (d2 = decode BigEndian db) as -> by congruence.
  assert (s1 = decode LittleEndian sb) as -> by congruence.
  assert (s2 = decode BigEndian sb) as -> by congruence.
  cbn [device_at ip_address].
  rewrite (decode_eqb BigEndian db addr) by lia.
  change 0xFFFFFFFF with (decode LittleEndian all_ones) at 1.
  change 0xFFFFFFFF with (decode BigEndian all_ones).
  rewrite (decode_eqb BigEndian db all_ones) by (rewrite Ldb; reflexivity).
  destruct (negb (decode LittleEndian db =? decode LittleEndian addr)
            && negb (decode LittleEndian db =? decode LittleEndian all_ones)).
  { do 2 eexists. split; [reflexivity|]. split; [reflexivity|].
    right. left. split; reflexivity. }
  cbv zeta. destruct (proto =? 1).
  - do 2 eexists. split; [reflexivity|]. split; [reflexivity|].
    right. right. left. exists sb. eexists.
    split; [exact Lsb|]. split; reflexivity.
  - do 2 eexists. split; [reflexivity|]. split; [reflexivity|].
    right. right. right. exists sb. do 3 eexists.
    split; [exact Lsb|]. split; reflexivity.
Qed.

Lemma ipv4_receive_byte_order_witness :
  exists (e : rx_event) (p : payload_ref),
    ipv4_receive BigEndian
      (device_at BigEndian [x0a; x00; x00; x02] (mac_address nic_b))
      (hdr_icmp ++ payload8) 28 = Ok e /\
    dispatched e = Some p /\
    payload_length p = 8.
Proof.
  destruct (ipv4_receive_byte_order [x0a; x00; x00; x02] (mac_address nic_b)
              (mac_address nic_b) (hdr_icmp ++ payload8) 28 28)
    as (e1 & e2 & H1 & H2 & K); [reflexivity | simpl; lia |].
  exists e2.
  assert (e1 = Rx_icmp (ip_address nic_a)
                 {| payload_offset := 20; payload_length := 8 |}) as E1.
  { assert (Ok e1 = Ok (Rx_icmp (ip_address nic_a)
                          {| payload_offset := 20; payload_length := 8 |}))
      as E by (rewrite <- H1; reflexivity).
    injection E as ->. reflexivity. }
  subst e1.
  destruct K as [[K _] | [[K _] | [(src & p & _ & K1 & K2) | (src & proto & p & hex & _ & K1 & _)]]];
    try discriminate.
  injection K1 as _ <-. subst e2.
  eexists. split; [exact H2|]. split; reflexivity.
Defined.
